(** * transproxify: the command line front end and the wire protocols

    A shallow embedding of [src/main.cpp] (option parsing, positional
    arguments, the password prompt and the dispatch to the TCP or UDP
    server), followed by models of the handshakes and of the stream relay.

    Conventions.
    - [argv] is the argument vector without [argv[0]].
    - C strings are [string]s; the conversion of a [char] buffer to a
      [std::string] stops at the first NUL byte ([c_str]).
    - [int] values are [Z] together with the bounds [INT_MIN], [INT_MAX].
    - [tty.c_lflag] is a [Z] handled with [Z.ldiff] and [Z.lor].
    - What [main] writes to [stderr], the terminal settings it installs and
      the read of the password are recorded, in order, in a trace. *)

From Stdlib Require Import ZArith NArith List String Ascii Bool Lia DecimalString HexadecimalString.
From Stdlib.Strings Require Byte.
From Stdlib Require DecimalN DecimalPos HexadecimalN HexadecimalPos.
Import ListNotations.

Local Open Scope string_scope.
Local Open Scope Z_scope.
Local Open Scope list_scope.

(** ** Characters and C strings *)

Definition NUL : ascii := "000"%char.
Definition LF : ascii := "010"%char.
Definition CR : ascii := "013"%char.

(** [std::string(const char* )]: the characters before the first NUL. *)
Fixpoint c_str (s : string) : string :=
  match s with
  | EmptyString => EmptyString
  | String c r => if Ascii.eqb c NUL then EmptyString else String c (c_str r)
  end.

Fixpoint mem_char (c : ascii) (s : string) : bool :=
  match s with
  | EmptyString => false
  | String d r => Ascii.eqb c d || mem_char c r
  end.

(** ** ProxySettings *)

Module ProxySettings.

(** Modelled from the spec: the Settings of section 3; [ProxySettings.hpp]
    is not among the sources, the enumerators and the order of the fields
    are those that main.cpp uses (lines 158-159, 171-194 and 247). *)

Inductive ProxyProtocol := DIRECT | HTTP | SOCKS4 | SOCKS5.
Inductive ProxiedProtocol := TCP | UDP.

Record t := mk {
  proxyProtocol : ProxyProtocol;
  proxiedProtocol : ProxiedProtocol;
  proxyHost : string;
  proxyPort : Z;
  username : string;
  password : string
}.

End ProxySettings.

Import ProxySettings.

(** ** std::stoi (main.cpp:223-224)

    [std::stoi(str)] runs [strtol(str, &end, 10)]: white space is skipped,
    one sign is accepted, then the longest run of decimal digits is read.
    No digit: [std::invalid_argument].  A value outside [int]:
    [std::out_of_range].  Characters after the digits are ignored. *)

Definition INT_MAX : Z := 2147483647.
Definition INT_MIN : Z := -2147483648.

Inductive stoi_result :=
| StoiValue (n : Z)
| StoiInvalidArgument
| StoiOutOfRange.

Definition isspace (c : ascii) : bool :=
  let n := nat_of_ascii c in
  (Nat.eqb n 32 || (Nat.leb 9 n && Nat.leb n 13))%bool.

Definition isdigit (c : ascii) : bool :=
  let n := nat_of_ascii c in (Nat.leb 48 n && Nat.leb n 57)%bool.

Definition digit_value (c : ascii) : Z := Z.of_nat (nat_of_ascii c) - 48.

Fixpoint skip_space (s : string) : string :=
  match s with
  | String c r => if isspace c then skip_space r else s
  | EmptyString => s
  end.

(** The digits at the front of [s], read in base ten onto [acc]; [None]
    when [s] starts with no digit. *)
Fixpoint read_digits (acc : Z) (seen : bool) (s : string) : option Z :=
  match s with
  | String c r =>
      if isdigit c then read_digits (10 * acc + digit_value c) true r
      else if seen then Some acc else None
  | EmptyString => if seen then Some acc else None
  end.

Definition stoi (str : string) : stoi_result :=
  let s := skip_space str in
  let '(negative, digits) :=
    match s with
    | String "-"%char r => (true, r)
    | String "+"%char r => (false, r)
    | _ => (false, s)
    end in
  match read_digits 0 false digits with
  | None => StoiInvalidArgument
  | Some v =>
      let n := if negative then - v else v in
      if (INT_MIN <=? n) && (n <=? INT_MAX) then StoiValue n else StoiOutOfRange
  end.

(** ** getopt(argc, argv, "t:r:u:pP:") (main.cpp:168)

    The GNU scanner: an element that starts with [-] and is longer than
    one character is a cluster of option letters; a letter that takes an
    argument uses the rest of its cluster or else the next element; an
    unknown letter or a missing argument is reported as [?]; the element
    [--] ends the options; the other elements are the operands, which the
    scanner moves behind the options unless [POSIXLY_CORRECT] is set, in
    which case the first operand ends the options. *)

Definition optstring : string := "t:r:u:pP:".

(** [Some true]: the letter takes an argument; [Some false]: it is a flag;
    [None]: it is not an option letter. *)
Fixpoint lookup_opt (spec : string) (c : ascii) : option bool :=
  match spec with
  | EmptyString => None
  | String d r =>
      if Ascii.eqb c d && negb (Ascii.eqb c ":"%char) then
        match r with
        | String ":"%char _ => Some true
        | _ => Some false
        end
      else lookup_opt r c
  end.

(** What one call of [getopt] returns: the letter and [optarg]. *)
Definition opt : Type := ascii * string.

Definition bad_opt : opt := ("?"%char, EmptyString).

(** The letters of one cluster; the second component names the letter
    whose argument is the next element of [argv]. *)
Fixpoint scan_cluster (cl : string) : list opt * option ascii :=
  match cl with
  | EmptyString => ([], None)
  | String c r =>
      match lookup_opt optstring c with
      | None => let '(os, need) := scan_cluster r in (bad_opt :: os, need)
      | Some false => let '(os, need) := scan_cluster r in ((c, EmptyString) :: os, need)
      | Some true =>
          match r with
          | EmptyString => ([], Some c)
          | _ => ([(c, r)], None)
          end
      end
  end.

Definition is_option_element (a : string) : option string :=
  match a with
  | String "-"%char (String c r) => Some (String c r)
  | _ => None
  end.

(** All the results [getopt] gives until it returns -1, and the operands
    [argv[optind..argc-1]] it leaves. *)
Fixpoint getopt (posixly_correct : bool) (argv : list string) : list opt * list string :=
  match argv with
  | [] => ([], [])
  | a :: rest =>
      if String.eqb a "--" then ([], rest)
      else
        match is_option_element a with
        | Some cl =>
            let '(os, need) := scan_cluster cl in
            match need with
            | None => let '(os', ops) := getopt posixly_correct rest in (os ++ os', ops)
            | Some c =>
                match rest with
                | [] => (os ++ [bad_opt], [])
                | v :: rest' =>
                    let '(os', ops) := getopt posixly_correct rest' in
                    (os ++ (c, v) :: os', ops)
                end
            end
        | None =>
            if posixly_correct then ([], argv)
            else let '(os, ops) := getopt posixly_correct rest in (os, a :: ops)
        end
  end.

(** ** std::cin.getline(passwordCstr, 256) (main.cpp:236-238)

    Characters are extracted and stored until, tested in this order: the
    end of the input (eofbit); the next character is the newline, which is
    extracted and not stored; [count - 1] characters have been stored
    (failbit).  A call that extracts nothing sets failbit as well. *)

Record getline_result := {
  stored : string;      (* the buffer, without its terminating NUL *)
  extracted : nat;      (* gcount *)
  failbit : bool
}.

Fixpoint getline_from (room : nat) (input : string) {struct input} : getline_result :=
  match input with
  | EmptyString => {| stored := EmptyString; extracted := 0; failbit := false |}
  | String c r =>
      if Ascii.eqb c LF then
        {| stored := EmptyString; extracted := 1; failbit := false |}
      else
        match room with
        | O => {| stored := EmptyString; extracted := 0; failbit := true |}
        | S room' =>
            let g := getline_from room' r in
            {| stored := String c (stored g);
               extracted := S (extracted g);
               failbit := failbit g |}
        end
  end.

Definition getline (count : nat) (input : string) : getline_result :=
  let g := getline_from (count - 1) input in
  {| stored := stored g;
     extracted := extracted g;
     failbit := failbit g || Nat.eqb (extracted g) 0 |}.

(** ** The terminal and the standard input *)

(** [ECHO] of <termios.h> on Linux (octal 0000010). *)
Definition ECHO : Z := 8.

Definition echo_on (c_lflag : Z) : bool := Z.testbit c_lflag 3.

(** What the process meets when it blocks in the read of the password:
    the bytes standing on the standard input up to its end, or a signal
    whose default action ends the process (no handler is installed in
    [main]). *)
Inductive stdin_t :=
| Input (bytes : string)
| Interrupted.

Record World := {
  posixly_correct : bool;   (* the environment variable POSIXLY_CORRECT *)
  c_lflag : Z;              (* the local modes tcgetattr reports at start *)
  stdin : stdin_t
}.

(** ** What a run of main does *)

(** What [main] itself does that can be observed, in order.  The
    diagnostics that [getopt] and [std::terminate] write on their own are
    not recorded. *)
Inductive event :=
| Stderr (line : string)      (* std::cerr << line << std::endl *)
| PrintUsage                  (* print_usage() *)
| TcSetAttr (c_lflag : Z)     (* tcsetattr(STDIN_FILENO, TCSANOW, &tty) *)
| CinGetline.                 (* std::cin.getline(passwordCstr, 256) *)

(** How the part of [main] before the servers ends: it exits, an
    exception of [std::stoi] leaves it, a signal ends the process, or it
    hands over to a server.  What [run()] does, and the exception that
    main.cpp:259 throws should [run()] return, lie after the hand-over and
    are not part of a run. *)
Inductive outcome :=
| Exit (status : Z)                          (* exit(status) *)
| Terminate                                  (* an exception leaves main before a server is made: std::terminate *)
| Killed                                     (* ended by a signal *)
| RunTcpServer (s : ProxySettings.t) (listenPort : Z)   (* TcpServer(s, listenPort).run() *)
| RunUdpServer (s : ProxySettings.t) (listenPort : Z).  (* UdpServer(s, listenPort).run() *)

Record run := {
  trace : list event;
  result : outcome
}.

(** The local variables of [main] that the option loop assigns. *)
Record locals := {
  l_proxyProtocol : ProxyProtocol;
  l_proxiedProtocol : ProxiedProtocol;
  l_username : string;
  l_password : string;
  l_promptPassword : bool
}.

Definition initial_locals : locals :=
  {| l_proxyProtocol := HTTP;
     l_proxiedProtocol := TCP;
     l_username := EmptyString;
     l_password := EmptyString;
     l_promptPassword := false |}.

Definition parse_proxy_protocol (optarg : string) : option ProxyProtocol :=
  if String.eqb optarg "direct" then Some DIRECT
  else if String.eqb optarg "http" then Some HTTP
  else if String.eqb optarg "socks4" then Some SOCKS4
  else if String.eqb optarg "socks5" then Some SOCKS5
  else None.

Definition parse_proxied_protocol (optarg : string) : option ProxiedProtocol :=
  if String.eqb optarg "tcp" then Some TCP
  else if String.eqb optarg "udp" then Some UDP
  else None.

(** The body of the [switch (c)] (main.cpp:169-215): the updated locals,
    or what is written before [exit(1)]. *)
Definition handle_option (l : locals) (o : opt) : locals + list event :=
  let '(c, optarg) := o in
  if Ascii.eqb c "t"%char then
    match parse_proxy_protocol optarg with
    | Some p =>
        inl {| l_proxyProtocol := p;
               l_proxiedProtocol := l_proxiedProtocol l;
               l_username := l_username l;
               l_password := l_password l;
               l_promptPassword := l_promptPassword l |}
    | None => inr [Stderr "Unknown proxy protocol"; PrintUsage]
    end
  else if Ascii.eqb c "r"%char then
    match parse_proxied_protocol optarg with
    | Some p =>
        inl {| l_proxyProtocol := l_proxyProtocol l;
               l_proxiedProtocol := p;
               l_username := l_username l;
               l_password := l_password l;
               l_promptPassword := l_promptPassword l |}
    | None => inr [Stderr "Unknown proxied protocol"; PrintUsage]
    end
  else if Ascii.eqb c "u"%char then
    inl {| l_proxyProtocol := l_proxyProtocol l;
           l_proxiedProtocol := l_proxiedProtocol l;
           l_username := optarg;
           l_password := l_password l;
           l_promptPassword := l_promptPassword l |}
  else if Ascii.eqb c "p"%char then
    inl {| l_proxyProtocol := l_proxyProtocol l;
           l_proxiedProtocol := l_proxiedProtocol l;
           l_username := l_username l;
           l_password := l_password l;
           l_promptPassword := true |}
  else if Ascii.eqb c "P"%char then
    inl {| l_proxyProtocol := l_proxyProtocol l;
           l_proxiedProtocol := l_proxiedProtocol l;
           l_username := l_username l;
           l_password := optarg;
           l_promptPassword := l_promptPassword l |}
  else inr [Stderr "Bad option"; PrintUsage].

(** The [while ((c = getopt(...)) != -1)] loop (main.cpp:168-216). *)
Fixpoint option_loop (l : locals) (os : list opt) : locals + list event :=
  match os with
  | [] => inl l
  | o :: os' =>
      match handle_option l o with
      | inl l' => option_loop l' os'
      | inr out => inr out
      end
  end.

(** The prompt (main.cpp:230-245): the password, or the end of the run. *)
Definition prompt_password (w : World) : list event * (string + outcome) :=
  let off := Z.ldiff (c_lflag w) ECHO in
  let on := Z.lor off ECHO in
  let before :=
    [TcSetAttr off; Stderr "Please enter your proxy's password:"; CinGetline] in
  match stdin w with
  | Interrupted => (before, inr Killed)
  | Input bytes =>
      let g := getline 256 bytes in
      if failbit g then
        (before ++ [TcSetAttr on; Stderr "Failed to get password from stdin"],
         inr (Exit 1))
      else (before ++ [TcSetAttr on], inl (c_str (stored g)))
  end.

(** The construction of the settings and the dispatch (main.cpp:247-256). *)
Definition start_server (l : locals) (proxyHost : string) (proxyPort listenPort : Z)
    (password : string) : outcome :=
  let proxySettings :=
    ProxySettings.mk (l_proxyProtocol l) (l_proxiedProtocol l) proxyHost proxyPort
      (l_username l) password in
  match l_proxiedProtocol l with
  | TCP => RunTcpServer proxySettings listenPort
  | UDP => RunUdpServer proxySettings listenPort
  end.

Definition main (argv : list string) (w : World) : run :=
  let '(os, operands) := getopt (posixly_correct w) argv in
  match option_loop initial_locals os with
  | inr out => {| trace := out; result := Exit 1 |}
  | inl l =>
      match operands with
      | [proxyHost; a1; a2] =>
          match stoi a1 with
          | StoiInvalidArgument => {| trace := [PrintUsage]; result := Exit 1 |}
          | StoiOutOfRange => {| trace := []; result := Terminate |}
          | StoiValue proxyPort =>
              match stoi a2 with
              | StoiInvalidArgument => {| trace := [PrintUsage]; result := Exit 1 |}
              | StoiOutOfRange => {| trace := []; result := Terminate |}
              | StoiValue listenPort =>
                  if l_promptPassword l then
                    match prompt_password w with
                    | (evs, inr o) => {| trace := evs; result := o |}
                    | (evs, inl password) =>
                        {| trace := evs;
                           result := start_server l proxyHost proxyPort listenPort password |}
                    end
                  else
                    {| trace := [];
                       result := start_server l proxyHost proxyPort listenPort (l_password l) |}
              end
          end
      | _ => {| trace := [PrintUsage]; result := Exit 1 |}
      end
  end.

(** ** Reading a run *)

(** The local modes of the terminal after the events of a trace. *)
Fixpoint lflag_after (c_lflag : Z) (evs : list event) : Z :=
  match evs with
  | [] => c_lflag
  | TcSetAttr f :: evs' => lflag_after f evs'
  | _ :: evs' => lflag_after c_lflag evs'
  end.


Definition final_lflag (argv : list string) (w : World) : Z :=
  lflag_after (c_lflag w) (trace (main argv w)).

(** A server was constructed and run: the only place where the program
    opens a socket. *)
Definition server_started (r : run) : bool :=
  match result r with
  | RunTcpServer _ _ | RunUdpServer _ _ => true
  | _ => false
  end.

Definition settings_of (r : run) : option ProxySettings.t :=
  match result r with
  | RunTcpServer s _ | RunUdpServer s _ => Some s
  | _ => None
  end.

Definition event_eqb (a b : event) : bool :=
  match a, b with
  | Stderr x, Stderr y => String.eqb x y
  | PrintUsage, PrintUsage => true
  | TcSetAttr x, TcSetAttr y => Z.eqb x y
  | CinGetline, CinGetline => true
  | _, _ => false
  end.

Definition prints_usage (r : run) : bool := existsb (event_eqb PrintUsage) (trace r).

Definition prompts (r : run) : bool := existsb (event_eqb CinGetline) (trace r).

Definition world0 : World :=
  {| posixly_correct := false; c_lflag := 35387; stdin := Input EmptyString |}.

Definition with_stdin (i : stdin_t) (w : World) : World :=
  {| posixly_correct := posixly_correct w; c_lflag := c_lflag w; stdin := i |}.

Definition line (s : string) : string := (s ++ String LF EmptyString)%string.

(** ** The shape of a run that reaches the prompt, and of one that does not *)

Definition after_prompt (l : locals) (proxyHost : string) (proxyPort listenPort : Z)
    (w : World) : run :=
  match prompt_password w with
  | (evs, inr o) => {| trace := evs; result := o |}
  | (evs, inl password) =>
      {| trace := evs; result := start_server l proxyHost proxyPort listenPort password |}
  end.

Inductive main_path (argv : list string) (w : World) : Prop :=
| PathOptionExit (msg : string) :
    main argv w = {| trace := [Stderr msg; PrintUsage]; result := Exit 1 |} ->
    main_path argv w
| PathUsageExit :
    main argv w = {| trace := [PrintUsage]; result := Exit 1 |} ->
    main_path argv w
| PathTerminate :
    main argv w = {| trace := []; result := Terminate |} ->
    main_path argv w
| PathPrompt (l : locals) (proxyHost : string) (proxyPort listenPort : Z) :
    option_loop initial_locals (fst (getopt (posixly_correct w) argv)) = inl l ->
    l_promptPassword l = true ->
    main argv w = after_prompt l proxyHost proxyPort listenPort w ->
    main_path argv w
| PathServer (l : locals) (proxyHost : string) (proxyPort listenPort : Z) :
    option_loop initial_locals (fst (getopt (posixly_correct w) argv)) = inl l ->
    l_promptPassword l = false ->
    main argv w =
      {| trace := [];
         result := start_server l proxyHost proxyPort listenPort (l_password l) |} ->
    main_path argv w.


(** A line of five characters whose third is NUL. *)
Definition line_with_nul : string :=
  String "a"%char (String "b"%char (String NUL "cd")).


(** ** Reading the options of a command line *)

(** The argument of the last option [c] that [getopt] delivered, when
    there is one. *)
Fixpoint last_optarg (c : ascii) (os : list opt) : option string :=
  match os with
  | [] => None
  | (c', v) :: os' =>
      match last_optarg c os' with
      | Some v' => Some v'
      | None => if Ascii.eqb c' c then Some v else None
      end
  end.

(** Whether [getopt] delivered the option [c]. *)
Definition has_opt (c : ascii) (os : list opt) : bool :=
  existsb (fun o => Ascii.eqb (fst o) c) os.

(** The letters that the [switch] of [main] has a case for. *)
Definition option_letters : list ascii :=
  ["t"%char; "r"%char; "u"%char; "p"%char; "P"%char].

Definition is_tc_set_attr (e : event) : bool :=
  match e with
  | TcSetAttr _ => true
  | _ => false
  end.

(** All the characters of [s] are white space for [std::stoi]. *)
Fixpoint all_space (s : string) : bool :=
  match s with
  | EmptyString => true
  | String c r => isspace c && all_space r
  end.

(** [s] does not go on with a digit. *)
Definition no_digit_ahead (s : string) : bool :=
  match s with
  | EmptyString => true
  | String c _ => negb (isdigit c)
  end.

(** A number written in base ten, as [std::to_string] writes it. *)
Definition to_string (n : N) : string :=
  DecimalString.NilEmpty.string_of_uint (N.to_uint n).

(** * The upstream protocols and the relay

    [TcpServer.hpp], [UdpServer.hpp] and [Util.hpp] hold the handshakes
    and the relay.  What follows models them from the specification
    (sections 4.2, 4.3, 4.6 and 6), over the same [ProxySettings]. *)

Module Net.

Definition bytes := list Byte.byte.

Definition byte_of_N (n : N) : Byte.byte :=
  match Byte.of_N (n mod 256) with
  | Some b => b
  | None => Byte.x00
  end.

Definition bytes_of_string (s : string) : bytes := list_byte_of_string s.

(** Modelled from the spec: the Destination of section 3, an address and
    a port; the address is an IPv4 address, an IPv6 address or a domain
    name (the address types of the SOCKS5 request). *)
Inductive address :=
| IPv4 (a b c d : Byte.byte)
| IPv6 (groups : list N)
| Domain (name : string).

Record Destination := {
  dest_address : address;
  dest_port : N
}.

(** Modelled from the spec: the failure conditions of section 4.2. *)
Inductive error :=
| ProxyUnreachable
| ProxyRejected
| ProtocolError
| UnsupportedAddress.

(** Modelled from the spec: "if credentials are configured" (section
    4.2); the usage text of main.cpp (lines 120-132) speaks of a username
    and password being supplied, so credentials are configured when both
    are there. *)
Definition credentials_configured (s : ProxySettings.t) : bool :=
  negb (String.eqb (username s) EmptyString) &&
  negb (String.eqb (password s) EmptyString).

(** ** The connection to the upstream, as the handshake sees it *)

(** Modelled from the spec: the established connection to the upstream
    proxy of section 3, as a handshake uses it. *)
Record conn := {
  sent : bytes;      (* what the handshake has written, in order *)
  unread : bytes     (* what the upstream answers, not yet read *)
}.

(** A handshake step: it reads and writes the connection and either
    yields a value or fails. *)
Definition M (A : Type) : Type := conn -> (A + error) * conn.

Definition ret {A} (a : A) : M A := fun c => (inl a, c).

Definition fail {A} (e : error) : M A := fun c => (inr e, c).

Definition bind {A B} (m : M A) (k : A -> M B) : M B :=
  fun c =>
    match m c with
    | (inl a, c') => k a c'
    | (inr e, c') => (inr e, c')
    end.

Notation "x <- m ;; k" := (bind m (fun x => k))
  (at level 61, m at next level, right associativity).
Notation "m ;;; k" := (bind m (fun _ => k))
  (at level 61, right associativity).

Definition send (b : bytes) : M unit :=
  fun c => (inl tt, {| sent := sent c ++ b; unread := unread c |}).

(** Reads exactly [n] bytes; an upstream that ends before them makes the
    step fail with [e]. *)
Definition recv (n : nat) (e : error) : M bytes :=
  fun c =>
    if Nat.leb n (List.length (unread c)) then
      (inl (firstn n (unread c)), {| sent := sent c; unread := skipn n (unread c) |})
    else (inr e, {| sent := sent c; unread := [] |}).

Definition recv_byte (e : error) : M Byte.byte :=
  b <- recv 1 e ;;
  match b with
  | [x] => ret x
  | _ => fail e
  end.

(** The bytes before the first line feed, which is consumed. *)
Fixpoint split_line (b : bytes) : option (bytes * bytes) :=
  match b with
  | [] => None
  | x :: r =>
      if Byte.eqb x Byte.x0a then Some ([], r)
      else match split_line r with
           | Some (l, r') => Some (x :: l, r')
           | None => None
           end
  end.

Definition recv_line (e : error) : M bytes :=
  fun c =>
    match split_line (unread c) with
    | Some (l, r) => (inl l, {| sent := sent c; unread := r |})
    | None => (inr e, {| sent := sent c; unread := [] |})
    end.

Definition guard (b : bool) (e : error) : M unit :=
  if b then ret tt else fail e.

(** ** Base64 (RFC 4648, with padding) *)

Definition base64_alphabet : string :=
  "ABCDEFGHIJKLMNOPQRSTUVWXYZabcdefghijklmnopqrstuvwxyz0123456789+/".

Definition base64_digit (n : N) : ascii :=
  match String.get (N.to_nat n) base64_alphabet with
  | Some c => c
  | None => "="%char
  end.

Definition sextets (n : N) : ascii * ascii * ascii * ascii :=
  (base64_digit (N.shiftr n 18),
   base64_digit (N.land (N.shiftr n 12) 63),
   base64_digit (N.land (N.shiftr n 6) 63),
   base64_digit (N.land n 63)).

(** Modelled from the spec: the [base64(user:pass)] of sections 4.2 and
    6: three octets give four digits, the last group is padded. *)
Fixpoint base64 (s : string) : string :=
  match s with
  | EmptyString => EmptyString
  | String a EmptyString =>
      let '(w, x, _, _) := sextets (N.shiftl (N_of_ascii a) 16) in
      String w (String x "==")
  | String a (String b EmptyString) =>
      let '(w, x, y, _) :=
        sextets (N.lor (N.shiftl (N_of_ascii a) 16) (N.shiftl (N_of_ascii b) 8)) in
      String w (String x (String y "="))
  | String a (String b (String c r)) =>
      let '(w, x, y, z) :=
        sextets (N.lor (N.lor (N.shiftl (N_of_ascii a) 16) (N.shiftl (N_of_ascii b) 8))
                       (N_of_ascii c)) in
      String w (String x (String y (String z (base64 r))))
  end.

(** The value of a Base64 digit. *)
Fixpoint index_in (c : ascii) (s : string) : option N :=
  match s with
  | EmptyString => None
  | String d r =>
      if Ascii.eqb c d then Some 0%N else option_map N.succ (index_in c r)
  end.

Definition base64_value (c : ascii) : option N := index_in c base64_alphabet.

Definition quad (a b c d : N) : N :=
  N.lor (N.lor (N.lor (N.shiftl a 18) (N.shiftl b 12)) (N.shiftl c 6)) d.

Definition octet (n : N) : ascii := ascii_of_N (N.land n 255).

(** The decoder of RFC 4648: four digits give three octets; [=] pads
    the last group. *)
Fixpoint base64_decode (s : string) : option string :=
  match s with
  | EmptyString => Some EmptyString
  | String w (String x (String y (String z r))) =>
      match base64_value w, base64_value x with
      | Some a, Some b =>
          if Ascii.eqb y "="%char then
            if Ascii.eqb z "="%char && String.eqb r EmptyString then
              Some (String (octet (N.shiftr (quad a b 0 0) 16)) EmptyString)
            else None
          else
            match base64_value y with
            | Some c =>
                if Ascii.eqb z "="%char then
                  if String.eqb r EmptyString then
                    Some (String (octet (N.shiftr (quad a b c 0) 16))
                            (String (octet (N.shiftr (quad a b c 0) 8)) EmptyString))
                  else None
                else
                  match base64_value z with
                  | Some d =>
                      match base64_decode r with
                      | Some t =>
                          Some (String (octet (N.shiftr (quad a b c d) 16))
                                  (String (octet (N.shiftr (quad a b c d) 8))
                                     (String (octet (quad a b c d)) t)))
                      | None => None
                      end
                  | None => None
                  end
            | None => None
            end
      | _, _ => None
      end
  | _ => None
  end.

(** ** HTTP CONNECT *)

Definition CRLF : string := String CR (String LF EmptyString).

Definition decimal (n : N) : string :=
  DecimalString.NilEmpty.string_of_uint (N.to_uint n).

Definition hexadecimal (n : N) : string :=
  HexadecimalString.NilEmpty.string_of_uint (N.to_hex_uint n).

Fixpoint join (sep : string) (l : list string) : string :=
  match l with
  | [] => EmptyString
  | [x] => x
  | x :: r => (x ++ sep ++ join sep r)%string
  end.

(** Modelled from the spec: the host of [CONNECT host:port] is the
    address in its text form. *)
Definition host_text (a : address) : string :=
  match a with
  | IPv4 a b c d =>
      join "." (map (fun x => decimal (Byte.to_N x)) [a; b; c; d])
  | IPv6 groups => ("[" ++ join ":" (map hexadecimal groups) ++ "]")%string
  | Domain name => name
  end.

Definition authority (d : Destination) : string :=
  (host_text (dest_address d) ++ ":" ++ decimal (dest_port d))%string.

(** Modelled from the spec: the header
    [Proxy-Authorization: Basic base64(user:pass)]. *)
Definition proxy_authorization (s : ProxySettings.t) : string :=
  ("Proxy-Authorization: Basic " ++ base64 (username s ++ ":" ++ password s))%string.

(** Modelled from the spec: the request line, the Host header and, if
    credentials are configured, the Proxy-Authorization header. *)
Definition http_request_lines (s : ProxySettings.t) (d : Destination) : list string :=
  [("CONNECT " ++ authority d ++ " HTTP/1.1")%string;
   ("Host: " ++ authority d)%string]
  ++ (if credentials_configured s then [proxy_authorization s] else []).

Fixpoint crlf_lines (l : list string) : string :=
  match l with
  | [] => EmptyString
  | x :: r => (x ++ CRLF ++ crlf_lines r)%string
  end.

(** Modelled from the spec: the bit-exact framing of section 6,
    [CONNECT host:port HTTP/1.1\r\nHost: host:port\r\n]
    [[Proxy-Authorization: Basic <base64(user:pass)>\r\n]\r\n\r\n]: the
    lines, each ended by CR LF, then CR LF twice: the blank line that
    terminates the head, and one CR LF more. *)
Definition http_request (s : ProxySettings.t) (d : Destination) : string :=
  (crlf_lines (http_request_lines s d) ++ CRLF ++ CRLF)%string.

Fixpoint digits_value (acc : N) (s : string) : option N :=
  match s with
  | EmptyString => Some acc
  | String c r =>
      if isdigit c then digits_value (10 * acc + (N_of_ascii c - 48)) r else None
  end.

Fixpoint after_space (s : string) : option string :=
  match s with
  | EmptyString => None
  | String c r => if Ascii.eqb c " "%char then Some r else after_space r
  end.

(** Modelled from the spec: the status line is [HTTP/version], a space,
    three digits, then a space or the end of the line; anything else is a
    malformed response. *)
Definition status_code (status_line : string) : option N :=
  if String.prefix "HTTP/" status_line then
    match after_space status_line with
    | Some r =>
        let code := String.substring 0 3 r in
        let rest := String.substring 3 (String.length r - 3) r in
        if Nat.eqb (String.length code) 3 then
          match rest with
          | EmptyString | String " "%char _ | String "013"%char EmptyString =>
              digits_value 0 code
          | _ => None
          end
        else None
    | None => None
    end
  else None.

Definition is_2xx (code : N) : bool := ((200 <=? code) && (code <? 300))%N.

(** Modelled from the spec: section 4.2, HTTP. *)
Definition http_handshake (s : ProxySettings.t) (d : Destination) : M unit :=
  send (bytes_of_string (http_request s d)) ;;;
  l <- recv_line ProxyRejected ;;
  match status_code (string_of_list_byte l) with
  | Some code => guard (is_2xx code) ProxyRejected
  | None => fail ProxyRejected
  end.

(** ** SOCKS4 *)

Definition be16 (n : N) : bytes := [byte_of_N (n / 256); byte_of_N n].

(** Modelled from the spec: version 4, command CONNECT, the port in
    network order, the IPv4 address, the user id and its NUL. *)
Definition socks4_request (s : ProxySettings.t) (d : Destination) : option bytes :=
  match dest_address d with
  | IPv4 a b c e =>
      Some ([Byte.x04; Byte.x01] ++ be16 (dest_port d) ++ [a; b; c; e]
            ++ bytes_of_string (username s) ++ [Byte.x00])
  | _ => None
  end.

Definition socks4_granted : Byte.byte := Byte.x5a.

(** Modelled from the spec: section 4.2, SOCKS4. *)
Definition socks4_handshake (s : ProxySettings.t) (d : Destination) : M unit :=
  match socks4_request s d with
  | None => fail UnsupportedAddress
  | Some request =>
      send request ;;;
      reply <- recv 8 ProtocolError ;;
      match reply with
      | _ :: status :: _ => guard (Byte.eqb status socks4_granted) ProxyRejected
      | _ => fail ProtocolError
      end
  end.

(** ** SOCKS5 *)

Definition no_authentication : Byte.byte := Byte.x00.
Definition username_password : Byte.byte := Byte.x02.

(** Modelled from the spec: "no authentication" always, plus
    "username/password" only if credentials are configured. *)
Definition socks5_methods (s : ProxySettings.t) : bytes :=
  no_authentication :: (if credentials_configured s then [username_password] else []).

(** Modelled from the spec: the greeting is the version, the number of
    methods and the methods. *)
Definition socks5_greeting (s : ProxySettings.t) : bytes :=
  Byte.x05 :: byte_of_N (N.of_nat (List.length (socks5_methods s))) :: socks5_methods s.

(** The greeting as the server reads it: its method list. *)
Definition greeting_methods (g : bytes) : option bytes :=
  match g with
  | ver :: n :: methods =>
      if Byte.eqb ver Byte.x05 && N.eqb (Byte.to_N n) (N.of_nat (List.length methods))
      then Some methods else None
  | _ => None
  end.

Definition length_prefixed (s : string) : bytes :=
  byte_of_N (N.of_nat (String.length s)) :: bytes_of_string s.

(** Modelled from the spec: version 1, length-prefixed username,
    length-prefixed password. *)
Definition socks5_auth (s : ProxySettings.t) : bytes :=
  Byte.x01 :: length_prefixed (username s) ++ length_prefixed (password s).

Definition socks5_address (a : address) : bytes :=
  match a with
  | IPv4 a b c d => [Byte.x01; a; b; c; d]
  | Domain name => Byte.x03 :: length_prefixed name
  | IPv6 groups => Byte.x04 :: flat_map be16 groups
  end.

Definition CONNECT : Byte.byte := Byte.x01.
Definition UDP_ASSOCIATE : Byte.byte := Byte.x03.

(** Modelled from the spec: version 5, command, reserved 0, address type
    and address, port. *)
Definition socks5_request (cmd : Byte.byte) (d : Destination) : bytes :=
  [Byte.x05; cmd; Byte.x00] ++ socks5_address (dest_address d) ++ be16 (dest_port d).

(** Modelled from the spec: the method the server selected; the
    sub-negotiation runs when it is username/password and must end in a
    success status. *)
Definition socks5_authenticate (s : ProxySettings.t) : M unit :=
  send (socks5_greeting s) ;;;
  r <- recv 2 ProtocolError ;;
  match r with
  | [_; method] =>
      if Byte.eqb method no_authentication then ret tt
      else if Byte.eqb method username_password && credentials_configured s then
        send (socks5_auth s) ;;;
        a <- recv 2 ProtocolError ;;
        match a with
        | [_; status] => guard (Byte.eqb status Byte.x00) ProtocolError
        | _ => fail ProtocolError
        end
      else fail ProtocolError
  | _ => fail ProtocolError
  end.

(** The bound address and port of the reply. *)
Definition socks5_read_bound : M bytes :=
  atyp <- recv_byte ProtocolError ;;
  a <- (if Byte.eqb atyp Byte.x01 then recv 4 ProtocolError
        else if Byte.eqb atyp Byte.x04 then recv 16 ProtocolError
        else if Byte.eqb atyp Byte.x03 then
          n <- recv_byte ProtocolError ;; recv (N.to_nat (Byte.to_N n)) ProtocolError
        else fail ProtocolError) ;;
  p <- recv 2 ProtocolError ;;
  ret (atyp :: a ++ p).

(** Modelled from the spec: section 4.2, SOCKS5, for a TCP connection. *)
Definition socks5_handshake (s : ProxySettings.t) (d : Destination) : M unit :=
  socks5_authenticate s ;;;
  send (socks5_request CONNECT d) ;;;
  h <- recv 3 ProtocolError ;;
  match h with
  | [_; status; _] => guard (Byte.eqb status Byte.x00) ProxyRejected
  | _ => fail ProtocolError
  end ;;;
  socks5_read_bound ;;;
  ret tt.

(** Modelled from the spec: the HandshakeClient, polymorphic over the
    four variants; Direct negotiates nothing. *)
Definition handshake (s : ProxySettings.t) (d : Destination) : M unit :=
  match proxyProtocol s with
  | DIRECT => ret tt
  | HTTP => http_handshake s d
  | SOCKS4 => socks4_handshake s d
  | SOCKS5 => socks5_handshake s d
  end.

(** ** StreamRelay *)

Inductive side := Client | Upstream.

(** Modelled from the spec: section 4.3; what the multiplexed wait on
    the two endpoints reports, in the order it reports it. *)
Inductive relay_event :=
| Data (from : side) (chunk : bytes)
| EndOfStream (from : side)
| IOError (from : side).

Record relay_state := {
  to_upstream : bytes;    (* written to the Tunnel, in order *)
  to_client : bytes;      (* written to the client, in order *)
  running : bool
}.

Definition relay_start : relay_state :=
  {| to_upstream := []; to_client := []; running := true |}.

(** Modelled from the spec: section 4.3; a chunk read from one side is
    written as it is to the other; the first end of stream or error ends
    the relay. *)
Definition relay_step (st : relay_state) (ev : relay_event) : relay_state :=
  if running st then
    match ev with
    | Data Client chunk =>
        {| to_upstream := to_upstream st ++ chunk;
           to_client := to_client st;
           running := true |}
    | Data Upstream chunk =>
        {| to_upstream := to_upstream st;
           to_client := to_client st ++ chunk;
           running := true |}
    | EndOfStream _ | IOError _ =>
        {| to_upstream := to_upstream st;
           to_client := to_client st;
           running := false |}
    end
  else st.

Definition stream_relay (evs : list relay_event) : relay_state :=
  fold_left relay_step evs relay_start.



(** ** RelayContext and Cleaner *)

(** Modelled from the spec: the client-side socket and the Tunnel that a
    RelayContext owns (section 3). *)
Inductive socket := ClientSocket | UpstreamSocket.

Inductive lifecycle :=
| Opened (k : socket)
| Closed (k : socket)
| RelayStarted.

Record resources := {
  held : list socket;        (* acquired and not yet released *)
  log : list lifecycle
}.

Definition acquire (k : socket) (r : resources) : resources :=
  {| held := k :: held r; log := log r ++ [Opened k] |}.

Definition note (e : lifecycle) (r : resources) : resources :=
  {| held := held r; log := log r ++ [e] |}.

Definition release_all (r : resources) : resources :=
  {| held := []; log := log r ++ map Closed (held r) |}.

(** Modelled from the spec: section 4.6; whatever the wrapped body
    returns, everything it holds at that point is released. *)
Definition Cleaner {A} (body : resources -> A * resources) (r : resources)
    : A * resources :=
  let '(a, r') := body r in (a, release_all r').

Record negotiation := {
  negotiated : unit + error;
  wire : conn;
  relayed : option relay_state
}.

(** Modelled from the spec: section 4.2, "the existing connection becomes
    the Tunnel": what the upstream has sent beyond the bytes that the
    handshake read stands on the connection when the relay starts, and is
    the first thing the relay reads from the Tunnel; [evs] is what the
    multiplexed wait reports after that. *)
Definition tunnel_events (c : conn) (evs : list relay_event) : list relay_event :=
  match unread c with
  | [] => evs
  | standing => Data Upstream standing :: evs
  end.

(** Modelled from the spec: sections 2 and 4.5; the connection to the
    upstream, the handshake, and the relay on that connection when the
    handshake succeeded. *)
Definition relay_body (s : ProxySettings.t) (d : Destination)
    (reachable : bool) (answer : bytes) (evs : list relay_event)
    (r : resources) : negotiation * resources :=
  let r1 := acquire UpstreamSocket r in
  if reachable then
    match handshake s d {| sent := []; unread := answer |} with
    | (inl _, c) =>
        ({| negotiated := inl tt;
            wire := c;
            relayed := Some (stream_relay (tunnel_events c evs)) |},
         note RelayStarted r1)
    | (inr e, c) =>
        ({| negotiated := inr e; wire := c; relayed := None |}, r1)
    end
  else
    ({| negotiated := inr ProxyUnreachable;
        wire := {| sent := []; unread := answer |};
        relayed := None |}, r1).

(** The resources of a context that starts with the accepted client
    connection. *)
Definition accepted : resources :=
  acquire ClientSocket {| held := []; log := [] |}.

(** Modelled from the spec: the RelayContext of sections 3 and 4.5,
    wrapped by the Cleaner. *)
Definition relay_context (s : ProxySettings.t) (d : Destination)
    (reachable : bool) (answer : bytes) (evs : list relay_event)
    : negotiation * resources :=
  Cleaner (relay_body s d reachable answer evs) accepted.

Definition socket_eqb (a b : socket) : bool :=
  match a, b with
  | ClientSocket, ClientSocket | UpstreamSocket, UpstreamSocket => true
  | _, _ => false
  end.

Definition lifecycle_eqb (a b : lifecycle) : bool :=
  match a, b with
  | Opened x, Opened y | Closed x, Closed y => socket_eqb x y
  | RelayStarted, RelayStarted => true
  | _, _ => false
  end.

Definition occurrences (e : lifecycle) (l : list lifecycle) : nat :=
  List.length (filter (lifecycle_eqb e) l).

(** Whether socket [k] is open after the events of a log. *)
Fixpoint socket_open (k : socket) (open : bool) (l : list lifecycle) : bool :=
  match l with
  | [] => open
  | Opened k' :: r => socket_open k (if socket_eqb k k' then true else open) r
  | Closed k' :: r => socket_open k (if socket_eqb k k' then false else open) r
  | RelayStarted :: r => socket_open k open r
  end.

(** ** The request as the upstream reads it *)

(** The line before the first CR LF, and what follows it. *)
Fixpoint split_crlf (s : string) : option (string * string) :=
  match s with
  | EmptyString => None
  | String c r =>
      match r with
      | EmptyString => None
      | String e r' =>
          if Ascii.eqb c CR && Ascii.eqb e LF then Some (EmptyString, r')
          else
            match split_crlf r with
            | Some (l, t) => Some (String c l, t)
            | None => None
            end
      end
  end.

(** The lines of a message head up to its blank line, and what follows
    the blank line. *)
Fixpoint head_lines (fuel : nat) (s : string) : option (list string * string) :=
  match fuel with
  | O => None
  | S fuel' =>
      match split_crlf s with
      | None => None
      | Some (EmptyString, rest) => Some ([], rest)
      | Some (l, rest) =>
          match head_lines fuel' rest with
          | Some (ls, rest') => Some (l :: ls, rest')
          | None => None
          end
      end
  end.

Definition message_head (s : string) : option (list string * string) :=
  head_lines (String.length s) s.

(** The pieces of [s] between the occurrences of [sep]. *)
Fixpoint split_on (sep : ascii) (s : string) : list string :=
  match s with
  | EmptyString => [EmptyString]
  | String c r =>
      if Ascii.eqb c sep then EmptyString :: split_on sep r
      else
        match split_on sep r with
        | x :: t => String c x :: t
        | [] => [String c EmptyString]
        end
  end.

(** A number read from its digits in base ten; no digit is no number. *)
Definition read_decimal (t : string) : option N :=
  match t with
  | EmptyString => None
  | _ => option_map N.of_uint (DecimalString.NilEmpty.uint_of_string t)
  end.

(** A number read from its digits in base sixteen. *)
Definition read_hexadecimal (t : string) : option N :=
  match t with
  | EmptyString => None
  | _ => option_map N.of_hex_uint (HexadecimalString.NilEmpty.uint_of_string t)
  end.

Definition read_octet (t : string) : option Byte.byte :=
  match read_decimal t with
  | Some n => Byte.of_N n
  | None => None
  end.

(** The text [host] denotes the address [a]: four octets in base ten
    between dots, groups in base sixteen between colons inside brackets,
    or the domain name itself. *)
Definition host_reads_as (a : address) (host : string) : Prop :=
  match a with
  | IPv4 a b c e =>
      map read_octet (split_on "."%char host) = [Some a; Some b; Some c; Some e]
  | IPv6 groups =>
      exists inner,
        host = ("[" ++ inner ++ "]")%string /\
        map read_hexadecimal (split_on ":"%char inner) = map Some groups
  | Domain name => host = name
  end.

(** The upstream's answer starts with a status line that carries a 2xx
    status. *)
Definition answers_2xx (answer : bytes) : bool :=
  match split_line answer with
  | Some (l, _) =>
      match status_code (string_of_list_byte l) with
      | Some code => is_2xx code
      | None => false
      end
  | None => false
  end.

(** ** Statements about handshakes *)


(** What [m] has written only grows. *)
Definition monotone {A} (m : M A) : Prop :=
  forall c, exists more, sent (snd (m c)) = sent c ++ more.

(** [m] writes [b] before anything else. *)
Definition sends_first {A} (b : bytes) (m : M A) : Prop :=
  forall c, exists more, sent (snd (m c)) = sent c ++ b ++ more.

(** A line that can stand in a message head. *)
Definition plain_line (l : string) : Prop :=
  mem_char CR l = false /\ l <> EmptyString.

(** ** Settings, a destination and traffic for the examples *)

Definition bob : ProxySettings.t :=
  ProxySettings.mk SOCKS5 TCP "proxyserver" 1080 "bob" "hunter2".

Definition example_org : Destination :=
  {| dest_address := IPv4 Byte.x5d Byte.xb8 Byte.xd8 Byte.x22; dest_port := 443 |}.

Definition example_name : Destination :=
  {| dest_address := Domain "example.org"; dest_port := 443 |}.

Definition carol : ProxySettings.t :=
  ProxySettings.mk SOCKS4 TCP "proxyserver" 1080 "carol" EmptyString.

Definition example_ok : bytes :=
  bytes_of_string ("HTTP/1.1 200 Connection established" ++ CRLF ++ CRLF).

Definition example_traffic : list relay_event :=
  [Data Client (bytes_of_string "GET / HTTP/1.1");
   Data Upstream (bytes_of_string "HTTP/1.1 200 OK");
   Data Client (bytes_of_string "more");
   EndOfStream Upstream;
   Data Client (bytes_of_string "late")].

Definition alice : ProxySettings.t :=
  ProxySettings.mk HTTP TCP "proxyserver" 8080 "alice" "secret".

End Net.
(** * Facts about main *)

Example main_default_http :
  main ["proxyserver"; "8080"; "10000"] world0 =
  {| trace := [];
     result := RunTcpServer (ProxySettings.mk HTTP TCP "proxyserver" 8080 EmptyString EmptyString) 10000 |}.
Proof. reflexivity. Qed.

Example main_udp_socks5 :
  result (main ["-r"; "udp"; "-tsocks5"; "-u"; "bob"; "proxyserver"; "1080"; "10000"] world0) =
  RunUdpServer (ProxySettings.mk SOCKS5 UDP "proxyserver" 1080 "bob" EmptyString) 10000.
Proof. reflexivity. Qed.

Example main_permutes_operands :
  result (main ["proxyserver"; "-t"; "socks4"; "1080"; "--"; "10000"] world0) =
  RunTcpServer (ProxySettings.mk SOCKS4 TCP "proxyserver" 1080 EmptyString EmptyString) 10000.
Proof. reflexivity. Qed.

Example main_prompt :
  main ["-p"; "h"; "1"; "2"] (with_stdin (Input (line "hunter2")) world0) =
  {| trace := [TcSetAttr 35379; Stderr "Please enter your proxy's password:";
               CinGetline; TcSetAttr 35387];
     result := RunTcpServer (ProxySettings.mk HTTP TCP "h" 1 EmptyString "hunter2") 2 |}.
Proof. reflexivity. Qed.

Example stoi_examples :
  stoi "8080" = StoiValue 8080 /\ stoi "  -12abc" = StoiValue (-12) /\
  stoi "abc" = StoiInvalidArgument /\ stoi "-" = StoiInvalidArgument /\
  stoi "2147483647" = StoiValue 2147483647 /\ stoi "2147483648" = StoiOutOfRange /\
  stoi "-2147483648" = StoiValue (-2147483648) /\ stoi "99999999999999999999" = StoiOutOfRange.
Proof. repeat split; reflexivity. Qed.

(** ** The option loop *)

Lemma parse_proxy_protocol_none (v : string) :
  ~ In v ["direct"; "http"; "socks4"; "socks5"] -> parse_proxy_protocol v = None.
Proof.
  intros H. unfold parse_proxy_protocol.
  repeat match goal with
  | |- context [String.eqb v ?s] =>
      destruct (String.eqb_spec v s) as [E | _];
      [ exfalso; apply H; rewrite E; simpl; tauto | ]
  end.
  reflexivity.
Qed.

Lemma parse_proxied_protocol_none (v : string) :
  ~ In v ["tcp"; "udp"] -> parse_proxied_protocol v = None.
Proof.
  intros H. unfold parse_proxied_protocol.
  repeat match goal with
  | |- context [String.eqb v ?s] =>
      destruct (String.eqb_spec v s) as [E | _];
      [ exfalso; apply H; rewrite E; simpl; tauto | ]
  end.
  reflexivity.
Qed.

(** Whatever the loop writes before [exit(1)] is one message followed by
    the usage text. *)
Lemma handle_option_exit (l : locals) (o : opt) (out : list event) :
  handle_option l o = inr out -> exists msg, out = [Stderr msg; PrintUsage].
Proof.
  destruct o as [c optarg]. unfold handle_option.
  repeat match goal with
  | |- context [if ?b then _ else _] => destruct b
  | |- context [match ?x with Some _ => _ | None => _ end] => destruct x
  end; intros H; inversion H; eauto.
Qed.

Lemma option_loop_exit (os : list opt) (l : locals) (out : list event) :
  option_loop l os = inr out -> exists msg, out = [Stderr msg; PrintUsage].
Proof.
  revert l. induction os as [| o os IH]; intros l; simpl.
  - discriminate.
  - destruct (handle_option l o) as [l' | out'] eqn:E.
    + apply IH.
    + intros H. inversion H; subst. eapply handle_option_exit; eassumption.
Qed.

(** An option that [handle_option] refuses whatever the locals are stops
    the loop, at that option or before it. *)
Lemma option_loop_refused (os : list opt) (o : opt) :
  In o os ->
  (forall l, exists out, handle_option l o = inr out) ->
  forall l, exists out, option_loop l os = inr out.
Proof.
  intros Hin Hbad. induction os as [| o' os IH]; intros l.
  - destruct Hin.
  - simpl. destruct (handle_option l o') as [l' | out'] eqn:E.
    + destruct Hin as [-> | Hin].
      * destruct (Hbad l) as [out Hout]. congruence.
      * apply IH, Hin.
    + eauto.
Qed.

Lemma main_option_exit (argv : list string) (w : World) (out : list event) :
  option_loop initial_locals (fst (getopt (posixly_correct w) argv)) = inr out ->
  main argv w = {| trace := out; result := Exit 1 |}.
Proof.
  unfold main. destruct (getopt (posixly_correct w) argv) as [os operands]. simpl.
  intros ->. reflexivity.
Qed.

(** [-p] sets [promptPassword] and nothing clears it. *)
Lemma handle_option_keeps_prompt (l l' : locals) (o : opt) :
  handle_option l o = inl l' ->
  l_promptPassword l = true -> l_promptPassword l' = true.
Proof.
  destruct o as [c optarg]. unfold handle_option.
  repeat match goal with
  | |- context [if ?b then _ else _] => destruct b
  | |- context [match ?x with Some _ => _ | None => _ end] => destruct x
  end; intros H; inversion H; subst; simpl; auto.
Qed.

Lemma option_loop_keeps_prompt (os : list opt) (l l' : locals) :
  option_loop l os = inl l' ->
  l_promptPassword l = true -> l_promptPassword l' = true.
Proof.
  revert l. induction os as [| o os IH]; intros l; simpl.
  - intros H; inversion H; subst; auto.
  - destruct (handle_option l o) as [l1 | out] eqn:E; [| discriminate].
    intros H Hp. eapply IH; [eassumption |].
    eapply handle_option_keeps_prompt; eassumption.
Qed.

Lemma option_loop_prompt (os : list opt) (optarg : string) (l l' : locals) :
  In ("p"%char, optarg) os ->
  option_loop l os = inl l' -> l_promptPassword l' = true.
Proof.
  revert l. induction os as [| o os IH]; intros l Hin; simpl.
  - destruct Hin.
  - destruct (handle_option l o) as [l1 | out] eqn:E; [| discriminate].
    intros H. destruct Hin as [-> | Hin].
    + eapply option_loop_keeps_prompt; [eassumption |].
      unfold handle_option in E. simpl in E. inversion E. reflexivity.
    + eapply IH; eassumption.
Qed.

(** ** The paths through main *)

Lemma main_paths (argv : list string) (w : World) : main_path argv w.
Proof.
  assert (Hm : main argv w = main argv w) by reflexivity.
  unfold main at 2 in Hm.
  destruct (getopt (posixly_correct w) argv) as [os operands] eqn:Eg.
  assert (Hfst : fst (getopt (posixly_correct w) argv) = os) by (rewrite Eg; reflexivity).
  destruct (option_loop initial_locals os) as [l | out] eqn:Eloop.
  - destruct operands as [| h [| a1 [| a2 [| x rest]]]];
      try (apply PathUsageExit; exact Hm).
    destruct (stoi a1) as [proxyPort | |];
      [| apply PathUsageExit; exact Hm | apply PathTerminate; exact Hm].
    destruct (stoi a2) as [listenPort | |];
      [| apply PathUsageExit; exact Hm | apply PathTerminate; exact Hm].
    destruct (l_promptPassword l) eqn:Ep.
    + apply (PathPrompt argv w l h proxyPort listenPort); rewrite ?Hfst; auto.
    + apply (PathServer argv w l h proxyPort listenPort); rewrite ?Hfst; auto.
  - destruct (option_loop_exit _ _ _ Eloop) as [msg ->].
    apply (PathOptionExit argv w msg). exact Hm.
Qed.

(** ** getline and the conversion of the buffer *)

Lemma c_str_no_nul (s : string) : mem_char NUL s = false -> c_str s = s.
Proof.
  induction s as [| c r IH]; cbn [c_str mem_char]; [reflexivity |].
  rewrite (Ascii.eqb_sym NUL c). intros H. apply orb_false_iff in H.
  destruct H as [Hc Hr]. rewrite Hc, (IH Hr). reflexivity.
Qed.

(** A line that fits: everything before the newline is stored. *)
Lemma getline_from_newline (l rest : string) (room : nat) :
  mem_char LF l = false -> (String.length l <= room)%nat ->
  getline_from room (l ++ String LF rest)%string =
  {| stored := l; extracted := S (String.length l); failbit := false |}.
Proof.
  revert room. induction l as [| c r IH]; intros room Hlf Hlen.
  - cbn. rewrite ?Ascii.eqb_refl. reflexivity.
  - cbn [mem_char] in Hlf. rewrite (Ascii.eqb_sym LF c) in Hlf.
    apply orb_false_iff in Hlf. destruct Hlf as [Hc Hr].
    cbn [String.append getline_from]. rewrite Hc.
    destruct room as [| room']; [cbn in Hlen; lia |].
    rewrite IH; [reflexivity | assumption | cbn in Hlen; lia].
Qed.

(** Input that ends before a newline: everything is stored. *)
Lemma getline_from_eof (l : string) (room : nat) :
  mem_char LF l = false -> (String.length l <= room)%nat ->
  getline_from room l =
  {| stored := l; extracted := String.length l; failbit := false |}.
Proof.
  revert room. induction l as [| c r IH]; intros room Hlf Hlen.
  - cbn. rewrite ?Ascii.eqb_refl. reflexivity.
  - cbn [mem_char] in Hlf. rewrite (Ascii.eqb_sym LF c) in Hlf.
    apply orb_false_iff in Hlf. destruct Hlf as [Hc Hr].
    cbn [String.append getline_from]. rewrite Hc.
    destruct room as [| room']; [cbn in Hlen; lia |].
    rewrite IH; [reflexivity | assumption | cbn in Hlen; lia].
Qed.

(** More characters than the buffer holds before any newline: failbit. *)
Lemma getline_from_overlong (l rest : string) (room : nat) :
  mem_char LF l = false -> (room < String.length l)%nat ->
  failbit (getline_from room (l ++ rest)%string) = true.
Proof.
  revert room. induction l as [| c r IH]; intros room Hlf Hlen.
  - cbn in Hlen. lia.
  - cbn [mem_char] in Hlf. rewrite (Ascii.eqb_sym LF c) in Hlf.
    apply orb_false_iff in Hlf. destruct Hlf as [Hc Hr].
    cbn [String.append getline_from]. rewrite Hc.
    destruct room as [| room']; [reflexivity |].
    cbn [failbit]. apply IH; [assumption | cbn in Hlen; lia].
Qed.

Lemma getline_256_newline (l rest : string) :
  mem_char LF l = false -> (String.length l <= 255)%nat ->
  stored (getline 256 (l ++ String LF rest)%string) = l /\
  failbit (getline 256 (l ++ String LF rest)%string) = false.
Proof.
  intros Hlf Hlen. unfold getline.
  change (256 - 1)%nat with 255%nat.
  rewrite getline_from_newline by assumption. simpl. auto.
Qed.

Lemma getline_256_eof (l : string) :
  l <> EmptyString -> mem_char LF l = false -> (String.length l <= 255)%nat ->
  stored (getline 256 l) = l /\ failbit (getline 256 l) = false.
Proof.
  intros Hne Hlf Hlen. unfold getline.
  change (256 - 1)%nat with 255%nat.
  rewrite getline_from_eof by assumption. cbn [stored extracted failbit].
  destruct l; [contradiction Hne; reflexivity | auto].
Qed.

Lemma getline_256_overlong (l rest : string) :
  mem_char LF l = false -> (256 <= String.length l)%nat ->
  failbit (getline 256 (l ++ rest)%string) = true.
Proof.
  intros Hlf Hlen. unfold getline.
  change (256 - 1)%nat with 255%nat.
  cbn [failbit]. rewrite getline_from_overlong by (assumption || lia).
  reflexivity.
Qed.

(** ** The prompt *)

Lemma echo_bit (n : Z) : Z.testbit ECHO n = (n =? 3).
Proof.
  change ECHO with (2 ^ 3). rewrite Z.pow2_bits_eqb by lia. apply Z.eqb_sym.
Qed.


Lemma echo_on_spec (f : Z) : echo_on (Z.lor f ECHO) = true.
Proof.
  unfold echo_on. rewrite Z.lor_spec, echo_bit. simpl.
  apply orb_true_r.
Qed.


Lemma prompts_after_prompt (l : locals) (h : string) (p lp : Z) (w : World) :
  prompts (after_prompt l h p lp w) = true.
Proof.
  unfold after_prompt, prompt_password, prompts.
  destruct (stdin w) as [bytes |]; [destruct (failbit (getline 256 bytes)) |];
    reflexivity.
Qed.

(** A run that reads the password went through the whole of the parsing. *)
Lemma main_prompts (argv : list string) (w : World) :
  prompts (main argv w) = true ->
  exists l h p lp,
    option_loop initial_locals (fst (getopt (posixly_correct w) argv)) = inl l /\
    main argv w = after_prompt l h p lp w.
Proof.
  intros Hp. destruct (main_paths argv w) as [msg E | E | E | l h p lp El Ep E | l h p lp El Ep E];
    try (rewrite E in Hp; discriminate Hp).
  exists l, h, p, lp. auto.
Qed.

(** * The command line *)

(** ** Protocol choice *)

(** C1 (evaluation): the proxied protocol udp together with the upstream
    protocol http, or socks4, passes the whole of the argument handling:
    [main] writes nothing, does not exit, constructs the settings with this
    pair and runs the UDP server, whatever the environment, the terminal
    and the standard input are. *)
Theorem udp_with_http_or_socks4_reaches_server (w : World) :
  main ["-r"; "udp"; "-t"; "http"; "proxyserver"; "8080"; "10000"] w =
    {| trace := [];
       result := RunUdpServer
                   (ProxySettings.mk HTTP UDP "proxyserver" 8080 EmptyString EmptyString)
                   10000 |} /\
  main ["-r"; "udp"; "-t"; "socks4"; "proxyserver"; "1080"; "10000"] w =
    {| trace := [];
       result := RunUdpServer
                   (ProxySettings.mk SOCKS4 UDP "proxyserver" 1080 EmptyString EmptyString)
                   10000 |}.
Proof.
  destruct w as [[|] f i]; split; reflexivity.
Qed.

(** C4: an invocation in which [getopt] delivers a [-t] whose value is not
    one of direct, http, socks4, socks5, or a [-r] whose value is not tcp
    or udp, ends in [exit(1)] after the usage text, and no server (hence
    no socket) is ever started. *)
Theorem unknown_protocol_value_exits (argv : list string) (w : World) (v : string) :
  (In ("t"%char, v) (fst (getopt (posixly_correct w) argv)) /\
   ~ In v ["direct"; "http"; "socks4"; "socks5"]) \/
  (In ("r"%char, v) (fst (getopt (posixly_correct w) argv)) /\
   ~ In v ["tcp"; "udp"]) ->
  result (main argv w) = Exit 1 /\
  prints_usage (main argv w) = true /\
  server_started (main argv w) = false.
Proof.
  intros H.
  assert (Hex : exists out,
             option_loop initial_locals (fst (getopt (posixly_correct w) argv)) = inr out).
  { destruct H as [[Hin Hv] | [Hin Hv]].
    - eapply option_loop_refused; [exact Hin |].
      intros l. unfold handle_option. simpl.
      rewrite (parse_proxy_protocol_none v Hv). eauto.
    - eapply option_loop_refused; [exact Hin |].
      intros l. unfold handle_option. simpl.
      rewrite (parse_proxied_protocol_none v Hv). eauto. }
  destruct Hex as [out Hout].
  rewrite (main_option_exit argv w out Hout).
  destruct (option_loop_exit _ _ _ Hout) as [msg ->].
  repeat split.
Qed.

Lemma unknown_protocol_value_exits_witness :
  result (main ["-u"; "bob"; "-t"; "socks6"; "proxyserver"; "1080"; "10000"] world0) = Exit 1 /\
  prints_usage (main ["-u"; "bob"; "-t"; "socks6"; "proxyserver"; "1080"; "10000"] world0) = true /\
  server_started (main ["-u"; "bob"; "-t"; "socks6"; "proxyserver"; "1080"; "10000"] world0) = false.
Proof.
  apply (unknown_protocol_value_exits
           ["-u"; "bob"; "-t"; "socks6"; "proxyserver"; "1080"; "10000"] world0 "socks6").
  left. split.
  - simpl. right. left. reflexivity.
  - simpl. intros [H | [H | [H | [H | []]]]]; discriminate H.
Defined.

(** ** Positional arguments *)

(** C3 (evaluation): a port whose digits denote a value outside [int]
    makes [std::stoi] throw [std::out_of_range], which the handler for
    [std::invalid_argument] does not catch: the run ends in
    [std::terminate] with nothing written, neither the usage text nor an
    exit status of 1. *)
Theorem out_of_range_port_terminates (w : World) :
  stoi "99999999999" = StoiOutOfRange /\
  main ["proxyserver"; "99999999999"; "10000"] w = {| trace := []; result := Terminate |} /\
  main ["proxyserver"; "8080"; "4294967296"] w = {| trace := []; result := Terminate |}.
Proof.
  destruct w as [[|] f i]; repeat split; reflexivity.
Qed.

(** ** The two password options *)

(** C2 (counterexample): [-P fromargv] stands after [-p] on the command
    line, and still the password of the settings is the line typed at the
    prompt. *)
Lemma later_direct_password_loses :
  fst (getopt false ["-p"; "-P"; "fromargv"; "proxyserver"; "8080"; "10000"]) =
    [("p"%char, EmptyString); ("P"%char, "fromargv")] /\
  option_map password
    (settings_of (main ["-p"; "-P"; "fromargv"; "proxyserver"; "8080"; "10000"]
                       (with_stdin (Input (line "typed")) world0))) = Some "typed" /\
  "typed" <> "fromargv".
Proof.
  repeat split. discriminate.
Qed.

(** C2 (amended): when [-p] is among the options and a server is started,
    the password of the settings is the line read at the prompt, wherever
    [-P] stands on the command line and whatever its value is. *)
Theorem prompted_password_wins (argv : list string) (w : World)
    (optarg : string) (s : ProxySettings.t) :
  In ("p"%char, optarg) (fst (getopt (posixly_correct w) argv)) ->
  settings_of (main argv w) = Some s ->
  exists bytes,
    stdin w = Input bytes /\
    failbit (getline 256 bytes) = false /\
    password s = c_str (stored (getline 256 bytes)).
Proof.
  intros Hin Hs.
  destruct (main_paths argv w) as [msg E | E | E | l h p lp El Ep E | l h p lp El Ep E];
    try (rewrite E in Hs; discriminate Hs).
  - rewrite E in Hs. unfold after_prompt, prompt_password in Hs.
    destruct (stdin w) as [bytes |]; [| discriminate Hs].
    exists bytes. destruct (failbit (getline 256 bytes)); [discriminate Hs |].
    repeat split. unfold settings_of, start_server in Hs. simpl in Hs.
    destruct (l_proxiedProtocol l); inversion Hs; reflexivity.
  - rewrite (option_loop_prompt _ _ _ _ Hin El) in Ep. discriminate Ep.
Qed.

Lemma prompted_password_wins_witness :
  exists bytes,
    stdin (with_stdin (Input (line "typed")) world0) = Input bytes /\
    failbit (getline 256 bytes) = false /\
    password (ProxySettings.mk HTTP TCP "proxyserver" 8080 EmptyString "typed") =
      c_str (stored (getline 256 bytes)).
Proof.
  apply (prompted_password_wins
           ["-p"; "-P"; "fromargv"; "proxyserver"; "8080"; "10000"]
           (with_stdin (Input (line "typed")) world0) EmptyString).
  - simpl. left. reflexivity.
  - reflexivity.
Defined.

(** ** The password prompt *)




(** C10 (counterexample): a line of five characters whose third is NUL;
    the password is its first two characters, not the line. *)
Lemma line_with_nul_is_cut :
  String.length line_with_nul = 5%nat /\
  option_map password
    (settings_of (main ["-p"; "proxyserver"; "8080"; "10000"]
                       (with_stdin (Input (line line_with_nul)) world0))) = Some "ab" /\
  "ab" <> line_with_nul.
Proof.
  repeat split. discriminate.
Qed.

(** C10 (amended): when the prompt is reached, a line of at most 255
    characters, ended by a newline or by the end of a non-empty input,
    becomes the password up to its first NUL, the whole line when it
    holds none, whatever [-P] gave; a failed read, which a line of
    256 characters or more and an input that is already at its end both
    are, ends the run in [exit(1)] after the error message, with no server
    started and echo switched on again. *)
Theorem prompt_line_becomes_password (argv : list string) (w : World) :
  prompts (main argv w) = true ->
  (forall l rest,
     stdin w = Input (l ++ String LF rest)%string ->
     (String.length l <= 255)%nat -> mem_char LF l = false ->
     exists s,
       settings_of (main argv w) = Some s /\
       password s = c_str l /\
       (mem_char NUL l = false -> password s = l)) /\
  (forall l,
     stdin w = Input l -> l <> EmptyString ->
     (String.length l <= 255)%nat -> mem_char LF l = false ->
     exists s,
       settings_of (main argv w) = Some s /\
       password s = c_str l /\
       (mem_char NUL l = false -> password s = l)) /\
  (forall bytes,
     stdin w = Input bytes -> failbit (getline 256 bytes) = true ->
     result (main argv w) = Exit 1 /\
     In (Stderr "Failed to get password from stdin") (trace (main argv w)) /\
     server_started (main argv w) = false /\
     echo_on (final_lflag argv w) = true) /\
  (forall l rest,
     (256 <= String.length l)%nat -> mem_char LF l = false ->
     failbit (getline 256 (l ++ rest)%string) = true) /\
  failbit (getline 256 EmptyString) = true.
Proof.
  intros Hp. destruct (main_prompts argv w Hp) as (l0 & h & p & lp & _ & E).
  unfold final_lflag. rewrite E. unfold after_prompt, prompt_password.
  split; [| split; [| split; [| split]]].
  - intros l rest Hin Hlen Hlf. rewrite Hin.
    destruct (getline_256_newline l rest Hlf Hlen) as [Hst Hfail].
    rewrite Hfail, Hst.
    exists (ProxySettings.mk (l_proxyProtocol l0) (l_proxiedProtocol l0) h p
              (l_username l0) (c_str l)).
    split; [| split].
    + unfold settings_of, start_server. cbn. destruct (l_proxiedProtocol l0); reflexivity.
    + reflexivity.
    + intros Hnul. cbn. apply c_str_no_nul, Hnul.
  - intros l Hin Hne Hlen Hlf. rewrite Hin.
    destruct (getline_256_eof l Hne Hlf Hlen) as [Hst Hfail].
    rewrite Hfail, Hst.
    exists (ProxySettings.mk (l_proxyProtocol l0) (l_proxiedProtocol l0) h p
              (l_username l0) (c_str l)).
    split; [| split].
    + unfold settings_of, start_server. cbn. destruct (l_proxiedProtocol l0); reflexivity.
    + reflexivity.
    + intros Hnul. cbn. apply c_str_no_nul, Hnul.
  - intros bytes Hin Hfail. rewrite Hin, Hfail.
    cbn -[Z.ldiff Z.lor ECHO echo_on Z.testbit].
    split; [reflexivity |]. split; [auto 10 |]. split; [reflexivity |].
    apply echo_on_spec.
  - intros l rest Hlen Hlf. apply getline_256_overlong; assumption.
  - reflexivity.
Qed.

Lemma prompt_line_becomes_password_witness :
  (forall l rest,
     stdin (with_stdin (Input (line "hunter2")) world0) = Input (l ++ String LF rest)%string ->
     (String.length l <= 255)%nat -> mem_char LF l = false ->
     exists s,
       settings_of (main ["-P"; "old"; "-p"; "proxyserver"; "8080"; "10000"]
                         (with_stdin (Input (line "hunter2")) world0)) = Some s /\
       password s = c_str l /\
       (mem_char NUL l = false -> password s = l)) /\
  (forall l,
     stdin (with_stdin (Input (line "hunter2")) world0) = Input l -> l <> EmptyString ->
     (String.length l <= 255)%nat -> mem_char LF l = false ->
     exists s,
       settings_of (main ["-P"; "old"; "-p"; "proxyserver"; "8080"; "10000"]
                         (with_stdin (Input (line "hunter2")) world0)) = Some s /\
       password s = c_str l /\
       (mem_char NUL l = false -> password s = l)) /\
  (forall bytes,
     stdin (with_stdin (Input (line "hunter2")) world0) = Input bytes ->
     failbit (getline 256 bytes) = true ->
     result (main ["-P"; "old"; "-p"; "proxyserver"; "8080"; "10000"]
                  (with_stdin (Input (line "hunter2")) world0)) = Exit 1 /\
     In (Stderr "Failed to get password from stdin")
        (trace (main ["-P"; "old"; "-p"; "proxyserver"; "8080"; "10000"]
                     (with_stdin (Input (line "hunter2")) world0))) /\
     server_started (main ["-P"; "old"; "-p"; "proxyserver"; "8080"; "10000"]
                          (with_stdin (Input (line "hunter2")) world0)) = false /\
     echo_on (final_lflag ["-P"; "old"; "-p"; "proxyserver"; "8080"; "10000"]
                          (with_stdin (Input (line "hunter2")) world0)) = true) /\
  (forall l rest,
     (256 <= String.length l)%nat -> mem_char LF l = false ->
     failbit (getline 256 (l ++ rest)%string) = true) /\
  failbit (getline 256 EmptyString) = true.
Proof.
  apply (prompt_line_becomes_password
           ["-P"; "old"; "-p"; "proxyserver"; "8080"; "10000"]
           (with_stdin (Input (line "hunter2")) world0)).
  reflexivity.
Defined.

(** ** Further facts about the command line *)

(** X1: a number of operands other than three ends the run in [exit(1)]
    after the usage text, with no server started (main.cpp:217-220; an
    option refused before that ends it the same way). *)
Theorem wrong_operand_count_exits (argv : list string) (w : World) :
  List.length (snd (getopt (posixly_correct w) argv)) <> 3%nat ->
  result (main argv w) = Exit 1 /\
  prints_usage (main argv w) = true /\
  server_started (main argv w) = false.
Proof.
  intros Hlen. unfold main.
  destruct (getopt (posixly_correct w) argv) as [os operands]. cbn [snd] in Hlen.
  destruct (option_loop initial_locals os) as [l | out] eqn:Eloop.
  - destruct operands as [| h [| a1 [| a2 [| x rest]]]];
      try (repeat split; reflexivity).
    contradiction Hlen. reflexivity.
  - destruct (option_loop_exit _ _ _ Eloop) as [msg ->]. repeat split.
Qed.

Lemma wrong_operand_count_exits_witness :
  result (main ["-t"; "socks5"; "proxyserver"; "1080"] world0) = Exit 1 /\
  prints_usage (main ["-t"; "socks5"; "proxyserver"; "1080"] world0) = true /\
  server_started (main ["-t"; "socks5"; "proxyserver"; "1080"] world0) = false.
Proof.
  apply (wrong_operand_count_exits ["-t"; "socks5"; "proxyserver"; "1080"] world0).
  simpl. discriminate.
Defined.

(** X2: with three operands, a PROXY_PORT in which [std::stoi] finds no
    number, or a LISTEN_PORT in which it finds none after a PROXY_PORT it
    could read, ends the run in [exit(1)] after the usage text
    (main.cpp:221-228). *)
Theorem port_without_number_exits (argv : list string) (w : World)
    (proxyHost a1 a2 : string) :
  snd (getopt (posixly_correct w) argv) = [proxyHost; a1; a2] ->
  stoi a1 = StoiInvalidArgument \/
  ((exists n, stoi a1 = StoiValue n) /\ stoi a2 = StoiInvalidArgument) ->
  result (main argv w) = Exit 1 /\
  prints_usage (main argv w) = true /\
  server_started (main argv w) = false.
Proof.
  intros Hops Hbad. unfold main.
  destruct (getopt (posixly_correct w) argv) as [os operands]. cbn [snd] in Hops.
  subst operands.
  destruct (option_loop initial_locals os) as [l | out] eqn:Eloop.
  - destruct Hbad as [E1 | [[n E1] E2]].
    + rewrite E1. repeat split.
    + rewrite E1, E2. repeat split.
  - destruct (option_loop_exit _ _ _ Eloop) as [msg ->]. repeat split.
Qed.

Lemma port_without_number_exits_witness :
  result (main ["proxyserver"; "http"; "10000"] world0) = Exit 1 /\
  prints_usage (main ["proxyserver"; "http"; "10000"] world0) = true /\
  server_started (main ["proxyserver"; "http"; "10000"] world0) = false.
Proof.
  apply (port_without_number_exits ["proxyserver"; "http"; "10000"] world0
           "proxyserver" "http" "10000").
  - reflexivity.
  - left. reflexivity.
Defined.

(** X3: whenever [main] calls [exit], the status is 1, and what it wrote
    last is the usage text or the message about the password
    (main.cpp:186, 199, 214, 219, 227, 243). *)
Theorem exit_status_is_one (argv : list string) (w : World) (status : Z) :
  result (main argv w) = Exit status ->
  status = 1 /\
  (last (trace (main argv w)) CinGetline = PrintUsage \/
   last (trace (main argv w)) CinGetline = Stderr "Failed to get password from stdin").
Proof.
  intros H.
  destruct (main_paths argv w) as [msg E | E | E | l h p lp El Ep E | l h p lp El Ep E];
    rewrite E in H |- *; cbn in H.
  - inversion H. split; [reflexivity | left; reflexivity].
  - inversion H. split; [reflexivity | left; reflexivity].
  - discriminate H.
  - unfold after_prompt, prompt_password in *.
    destruct (stdin w) as [bytes |]; [| discriminate H].
    destruct (failbit (getline 256 bytes)).
    + inversion H. split; [reflexivity | right; reflexivity].
    + cbn in H. unfold start_server in H.
      destruct (l_proxiedProtocol l); discriminate H.
  - unfold start_server in H. destruct (l_proxiedProtocol l); discriminate H.
Qed.

Lemma exit_status_is_one_witness :
  1 = 1 /\
  (last (trace (main ["-x"] world0)) CinGetline = PrintUsage \/
   last (trace (main ["-x"] world0)) CinGetline = Stderr "Failed to get password from stdin").
Proof.
  apply (exit_status_is_one ["-x"] world0 1). reflexivity.
Defined.

Lemma getline_from_fits (room : nat) (input : string) :
  (String.length (stored (getline_from room input)) <= room)%nat.
Proof.
  revert room. induction input as [| c r IH]; intros room; cbn [getline_from].
  - cbn. lia.
  - destruct (Ascii.eqb c LF); [cbn; lia |].
    destruct room as [| room']; [cbn; lia |].
    cbn [stored String.length]. specialize (IH room'). lia.
Qed.

(** X4: whatever stands on the standard input, the characters that
    [getline] stores leave room for the terminating NUL in
    [passwordCstr[256]], and so does the password made of them
    (main.cpp:236-238). *)
Theorem password_fits_buffer (input : string) :
  (String.length (stored (getline 256 input)) <= 255)%nat /\
  (String.length (c_str (stored (getline 256 input))) <= 255)%nat.
Proof.
  assert (H : (String.length (stored (getline 256 input)) <= 255)%nat).
  { unfold getline. cbn [stored]. apply (getline_from_fits 255). }
  split; [exact H |].
  assert (Hc : forall s, (String.length (c_str s) <= String.length s)%nat).
  { induction s as [| c r IH]; cbn [c_str]; [lia |].
    destruct (Ascii.eqb c NUL); cbn [String.length]; lia. }
  specialize (Hc (stored (getline 256 input))). lia.
Qed.

(** * More of main: what a run lets one conclude about the command line *)

(** ** Runs without the prompt *)

Lemma handle_option_prompt_unchanged (l l' : locals) (o : opt) :
  handle_option l o = inl l' ->
  Ascii.eqb (fst o) "p"%char = false ->
  l_promptPassword l' = l_promptPassword l.
Proof.
  destruct o as [c optarg]. unfold handle_option. cbn [fst]. intros H Hc.
  rewrite Hc in H.
  repeat match type of H with
  | context [if ?b then _ else _] => destruct b
  | context [match ?x with Some _ => _ | None => _ end] => destruct x
  end; inversion H; reflexivity.
Qed.

Lemma option_loop_prompt_unchanged (os : list opt) (l l' : locals) :
  option_loop l os = inl l' ->
  has_opt "p"%char os = false ->
  l_promptPassword l' = l_promptPassword l.
Proof.
  revert l. induction os as [| o os IH]; intros l; cbn [option_loop has_opt existsb].
  - intros H _. inversion H. reflexivity.
  - destruct (handle_option l o) as [l1 | out] eqn:E; [| discriminate].
    intros H Hp. apply orb_false_iff in Hp. destruct Hp as [Ho Hos].
    rewrite (IH l1 H Hos). eapply handle_option_prompt_unchanged; eassumption.
Qed.

(** X6: when [-p] is not among the options that [getopt] delivers, the
    run never reads the standard input and never installs terminal
    settings: the local modes stay as they were, and the whole run is the
    same whatever the standard input and the terminal are. *)
Theorem without_p_no_prompt (argv : list string) (w : World) :
  has_opt "p"%char (fst (getopt (posixly_correct w) argv)) = false ->
  prompts (main argv w) = false /\
  existsb is_tc_set_attr (trace (main argv w)) = false /\
  final_lflag argv w = c_lflag w /\
  forall w', posixly_correct w' = posixly_correct w -> main argv w' = main argv w.
Proof.
  intros Hp.
  assert (Hsame : forall w', posixly_correct w' = posixly_correct w ->
                             main argv w' = main argv w).
  { intros w' Hw. unfold main. rewrite Hw.
    destruct (getopt (posixly_correct w) argv) as [os operands]. cbn [fst] in Hp.
    destruct (option_loop initial_locals os) as [l | out] eqn:Eloop; [| reflexivity].
    rewrite (option_loop_prompt_unchanged os _ _ Eloop Hp). cbn [initial_locals l_promptPassword].
    reflexivity. }
  unfold final_lflag.
  split; [| split; [| split; [| exact Hsame]]];
    destruct (main_paths argv w) as [msg E | E | E | l h p lp El Ep E | l h p lp El Ep E];
    try (rewrite E; reflexivity);
    rewrite (option_loop_prompt_unchanged _ _ _ El Hp) in Ep; discriminate Ep.
Qed.

Lemma without_p_no_prompt_witness :
  prompts (main ["-P"; "secret"; "proxyserver"; "8080"; "10000"] world0) = false /\
  existsb is_tc_set_attr
    (trace (main ["-P"; "secret"; "proxyserver"; "8080"; "10000"] world0)) = false /\
  final_lflag ["-P"; "secret"; "proxyserver"; "8080"; "10000"] world0 = c_lflag world0 /\
  forall w', posixly_correct w' = posixly_correct world0 ->
             main ["-P"; "secret"; "proxyserver"; "8080"; "10000"] w' =
             main ["-P"; "secret"; "proxyserver"; "8080"; "10000"] world0.
Proof.
  apply (without_p_no_prompt ["-P"; "secret"; "proxyserver"; "8080"; "10000"] world0).
  reflexivity.
Defined.

(** ** The prompt comes last *)

Lemma option_loop_prompt_has_p (os : list opt) (l l' : locals) :
  option_loop l os = inl l' ->
  l_promptPassword l = false -> l_promptPassword l' = true ->
  has_opt "p"%char os = true.
Proof.
  intros Hloop Hl Hl'. destruct (has_opt "p"%char os) eqn:Hp; [reflexivity |].
  rewrite (option_loop_prompt_unchanged os l l' Hloop Hp) in Hl'. congruence.
Qed.

(** X7: the password is asked for only after the whole command line has
    been accepted: when the prompt is reached, every option was taken,
    [-p] was among them, there are exactly three operands and both ports
    were read by [std::stoi]. *)
Theorem prompt_only_after_valid_arguments (argv : list string) (w : World) :
  prompts (main argv w) = true ->
  exists l proxyHost a1 a2 proxyPort listenPort,
    option_loop initial_locals (fst (getopt (posixly_correct w) argv)) = inl l /\
    has_opt "p"%char (fst (getopt (posixly_correct w) argv)) = true /\
    snd (getopt (posixly_correct w) argv) = [proxyHost; a1; a2] /\
    stoi a1 = StoiValue proxyPort /\
    stoi a2 = StoiValue listenPort.
Proof.
  unfold main. destruct (getopt (posixly_correct w) argv) as [os operands]. cbn [fst snd].
  destruct (option_loop initial_locals os) as [l | out] eqn:Eloop.
  - destruct operands as [| h [| a1 [| a2 [| x rest]]]]; try discriminate.
    destruct (stoi a1) as [p | |] eqn:E1; try discriminate.
    destruct (stoi a2) as [lp | |] eqn:E2; try discriminate.
    destruct (l_promptPassword l) eqn:Ep.
    + intros _. exists l, h, a1, a2, p, lp.
      split; [reflexivity |]. split; [| repeat split; assumption].
      eapply option_loop_prompt_has_p; [exact Eloop | reflexivity | exact Ep].
    + unfold prompts. cbn. discriminate.
  - destruct (option_loop_exit _ _ _ Eloop) as [msg ->]. discriminate.
Qed.

Lemma prompt_only_after_valid_arguments_witness :
  exists l proxyHost a1 a2 proxyPort listenPort,
    option_loop initial_locals
      (fst (getopt (posixly_correct world0) ["-p"; "proxyserver"; "8080"; "10000"])) = inl l /\
    has_opt "p"%char
      (fst (getopt (posixly_correct world0) ["-p"; "proxyserver"; "8080"; "10000"])) = true /\
    snd (getopt (posixly_correct world0) ["-p"; "proxyserver"; "8080"; "10000"]) =
      [proxyHost; a1; a2] /\
    stoi a1 = StoiValue proxyPort /\
    stoi a2 = StoiValue listenPort.
Proof.
  apply (prompt_only_after_valid_arguments ["-p"; "proxyserver"; "8080"; "10000"] world0).
  reflexivity.
Defined.

(** ** The last occurrence of an option decides *)

Lemma handle_option_fields (l l1 : locals) (c : ascii) (v : string) :
  handle_option l (c, v) = inl l1 ->
  Some (l_proxyProtocol l1) =
    (if Ascii.eqb c "t"%char then parse_proxy_protocol v else Some (l_proxyProtocol l)) /\
  Some (l_proxiedProtocol l1) =
    (if Ascii.eqb c "r"%char then parse_proxied_protocol v else Some (l_proxiedProtocol l)) /\
  l_username l1 = (if Ascii.eqb c "u"%char then v else l_username l) /\
  l_password l1 = (if Ascii.eqb c "P"%char then v else l_password l).
Proof.
  unfold handle_option.
  destruct (Ascii.eqb c "t"%char) eqn:Et.
  { apply Ascii.eqb_eq in Et. subst c. cbn.
    destruct (parse_proxy_protocol v); intros H; inversion H; cbn; auto. }
  destruct (Ascii.eqb c "r"%char) eqn:Er.
  { apply Ascii.eqb_eq in Er. subst c. cbn.
    destruct (parse_proxied_protocol v); intros H; inversion H; cbn; auto. }
  destruct (Ascii.eqb c "u"%char) eqn:Eu.
  { apply Ascii.eqb_eq in Eu. subst c. cbn. intros H; inversion H; cbn; auto. }
  destruct (Ascii.eqb c "p"%char) eqn:Ep.
  { apply Ascii.eqb_eq in Ep. subst c. cbn. intros H; inversion H; cbn; auto. }
  destruct (Ascii.eqb c "P"%char) eqn:EP.
  { intros H; inversion H; cbn; auto. }
  discriminate.
Qed.

(** What the loop leaves in the locals: for each of [-t], [-r], [-u] and
    [-P], the value of its last occurrence, or what the local held before
    the loop. *)
Lemma option_loop_last (os : list opt) (l l' : locals) :
  option_loop l os = inl l' ->
  Some (l_proxyProtocol l') =
    match last_optarg "t"%char os with
    | Some v => parse_proxy_protocol v
    | None => Some (l_proxyProtocol l)
    end /\
  Some (l_proxiedProtocol l') =
    match last_optarg "r"%char os with
    | Some v => parse_proxied_protocol v
    | None => Some (l_proxiedProtocol l)
    end /\
  l_username l' =
    match last_optarg "u"%char os with Some v => v | None => l_username l end /\
  l_password l' =
    match last_optarg "P"%char os with Some v => v | None => l_password l end.
Proof.
  revert l. induction os as [| [c v] os IH]; intros l; cbn [option_loop last_optarg].
  - intros H; inversion H; auto.
  - destruct (handle_option l (c, v)) as [l1 | out] eqn:E; [| discriminate].
    intros H. destruct (IH l1 H) as (Ht & Hr & Hu & HP).
    destruct (handle_option_fields l l1 c v E) as (Ft & Fr & Fu & FP).
    repeat split.
    + destruct (last_optarg "t"%char os); [exact Ht |].
      rewrite Ht, Ft. destruct (Ascii.eqb c "t"%char); reflexivity.
    + destruct (last_optarg "r"%char os); [exact Hr |].
      rewrite Hr, Fr. destruct (Ascii.eqb c "r"%char); reflexivity.
    + destruct (last_optarg "u"%char os); [exact Hu |].
      rewrite Hu, Fu. destruct (Ascii.eqb c "u"%char); reflexivity.
    + destruct (last_optarg "P"%char os); [exact HP |].
      rewrite HP, FP. destruct (Ascii.eqb c "P"%char); reflexivity.
Qed.

(** X8: the settings a server is started with hold, for each of [-t],
    [-r] and [-u], the value of the last occurrence that [getopt]
    delivered, and the default (http, tcp, no username) when there is
    none; without [-p] the password is that of the last [-P], or empty. *)
Theorem last_option_wins (argv : list string) (w : World) (s : ProxySettings.t) :
  settings_of (main argv w) = Some s ->
  Some (proxyProtocol s) =
    match last_optarg "t"%char (fst (getopt (posixly_correct w) argv)) with
    | Some v => parse_proxy_protocol v
    | None => Some HTTP
    end /\
  Some (proxiedProtocol s) =
    match last_optarg "r"%char (fst (getopt (posixly_correct w) argv)) with
    | Some v => parse_proxied_protocol v
    | None => Some TCP
    end /\
  username s =
    match last_optarg "u"%char (fst (getopt (posixly_correct w) argv)) with
    | Some v => v
    | None => EmptyString
    end /\
  (has_opt "p"%char (fst (getopt (posixly_correct w) argv)) = false ->
   password s =
     match last_optarg "P"%char (fst (getopt (posixly_correct w) argv)) with
     | Some v => v
     | None => EmptyString
     end).
Proof.
  intros Hs.
  destruct (main_paths argv w) as [msg E | E | E | l h p lp El Ep E | l h p lp El Ep E];
    try (rewrite E in Hs; discriminate Hs).
  - destruct (option_loop_last _ _ _ El) as (Ht & Hr & Hu & _).
    rewrite E in Hs. unfold after_prompt, prompt_password in Hs.
    destruct (stdin w) as [bytes |]; [| discriminate Hs].
    destruct (failbit (getline 256 bytes)); [discriminate Hs |].
    unfold settings_of, start_server in Hs. cbn in Hs.
    assert (Es : s = ProxySettings.mk (l_proxyProtocol l) (l_proxiedProtocol l) h p
                       (l_username l) (c_str (stored (getline 256 bytes)))).
    { destruct (l_proxiedProtocol l); inversion Hs; reflexivity. }
    subst s. cbn. repeat split; try assumption.
    intros Hp. rewrite (option_loop_prompt_unchanged _ _ _ El Hp) in Ep. discriminate Ep.
  - destruct (option_loop_last _ _ _ El) as (Ht & Hr & Hu & HP).
    rewrite E in Hs. unfold settings_of, start_server in Hs. cbn in Hs.
    assert (Es : s = ProxySettings.mk (l_proxyProtocol l) (l_proxiedProtocol l) h p
                       (l_username l) (l_password l)).
    { destruct (l_proxiedProtocol l); inversion Hs; reflexivity. }
    subst s. cbn. repeat split; try assumption. intros _. exact HP.
Qed.

Lemma last_option_wins_witness :
  Some (proxyProtocol (ProxySettings.mk SOCKS5 UDP "proxyserver" 1080 "bob" "two")) =
    match last_optarg "t"%char
            (fst (getopt (posixly_correct world0)
                    ["-t"; "http"; "-u"; "alice"; "-P"; "one"; "-r"; "udp"; "-tsocks5";
                     "-ubob"; "-P"; "two"; "proxyserver"; "1080"; "10000"])) with
    | Some v => parse_proxy_protocol v
    | None => Some HTTP
    end /\
  Some (proxiedProtocol (ProxySettings.mk SOCKS5 UDP "proxyserver" 1080 "bob" "two")) =
    match last_optarg "r"%char
            (fst (getopt (posixly_correct world0)
                    ["-t"; "http"; "-u"; "alice"; "-P"; "one"; "-r"; "udp"; "-tsocks5";
                     "-ubob"; "-P"; "two"; "proxyserver"; "1080"; "10000"])) with
    | Some v => parse_proxied_protocol v
    | None => Some TCP
    end /\
  username (ProxySettings.mk SOCKS5 UDP "proxyserver" 1080 "bob" "two") =
    match last_optarg "u"%char
            (fst (getopt (posixly_correct world0)
                    ["-t"; "http"; "-u"; "alice"; "-P"; "one"; "-r"; "udp"; "-tsocks5";
                     "-ubob"; "-P"; "two"; "proxyserver"; "1080"; "10000"])) with
    | Some v => v
    | None => EmptyString
    end /\
  (has_opt "p"%char
     (fst (getopt (posixly_correct world0)
             ["-t"; "http"; "-u"; "alice"; "-P"; "one"; "-r"; "udp"; "-tsocks5";
              "-ubob"; "-P"; "two"; "proxyserver"; "1080"; "10000"])) = false ->
   password (ProxySettings.mk SOCKS5 UDP "proxyserver" 1080 "bob" "two") =
     match last_optarg "P"%char
             (fst (getopt (posixly_correct world0)
                     ["-t"; "http"; "-u"; "alice"; "-P"; "one"; "-r"; "udp"; "-tsocks5";
                      "-ubob"; "-P"; "two"; "proxyserver"; "1080"; "10000"])) with
     | Some v => v
     | None => EmptyString
     end).
Proof.
  apply (last_option_wins
           ["-t"; "http"; "-u"; "alice"; "-P"; "one"; "-r"; "udp"; "-tsocks5";
            "-ubob"; "-P"; "two"; "proxyserver"; "1080"; "10000"] world0).
  reflexivity.
Defined.

(** ** What a started server was given *)

(** X9: when a server is started, [getopt] left exactly three operands;
    the proxy host of the settings is the first of them as it stands, the
    proxy port and the listen port are what [std::stoi] read in the
    second and the third, with no further check of their range; the TCP
    server is the one started exactly when the proxied protocol of the
    settings is tcp, the UDP server otherwise; and the usage text was not
    written. *)
Theorem server_start_inversion (argv : list string) (w : World) (s : ProxySettings.t) :
  settings_of (main argv w) = Some s ->
  exists proxyHost a1 a2 listenPort,
    snd (getopt (posixly_correct w) argv) = [proxyHost; a1; a2] /\
    ProxySettings.proxyHost s = proxyHost /\
    stoi a1 = StoiValue (ProxySettings.proxyPort s) /\
    stoi a2 = StoiValue listenPort /\
    result (main argv w) =
      match proxiedProtocol s with
      | TCP => RunTcpServer s listenPort
      | UDP => RunUdpServer s listenPort
      end /\
    prints_usage (main argv w) = false.
Proof.
  unfold main. destruct (getopt (posixly_correct w) argv) as [os operands]. cbn [fst snd].
  destruct (option_loop initial_locals os) as [l | out] eqn:Eloop; [| discriminate].
  destruct operands as [| h [| a1 [| a2 [| x rest]]]]; try discriminate.
  destruct (stoi a1) as [p | |] eqn:E1; try discriminate.
  destruct (stoi a2) as [lp | |] eqn:E2; try discriminate.
  destruct (l_promptPassword l).
  - unfold prompt_password.
    destruct (stdin w) as [bytes |]; [| discriminate].
    destruct (failbit (getline 256 bytes)); [discriminate |].
    unfold settings_of, start_server. cbn.
    destruct (l_proxiedProtocol l) eqn:Ek; intros H; inversion H; subst s; cbn;
      exists h, a1, a2, lp; rewrite ?Ek; repeat split; assumption.
  - unfold settings_of, start_server. cbn.
    destruct (l_proxiedProtocol l) eqn:Ek; intros H; inversion H; subst s; cbn;
      exists h, a1, a2, lp; rewrite ?Ek; repeat split; assumption.
Qed.

Lemma server_start_inversion_witness :
  exists proxyHost a1 a2 listenPort,
    snd (getopt (posixly_correct world0) ["-r"; "udp"; "localhost"; " +53x"; "70000"]) =
      [proxyHost; a1; a2] /\
    ProxySettings.proxyHost
      (ProxySettings.mk HTTP UDP "localhost" 53 EmptyString EmptyString) = proxyHost /\
    stoi a1 =
      StoiValue (ProxySettings.proxyPort
                   (ProxySettings.mk HTTP UDP "localhost" 53 EmptyString EmptyString)) /\
    stoi a2 = StoiValue listenPort /\
    result (main ["-r"; "udp"; "localhost"; " +53x"; "70000"] world0) =
      match proxiedProtocol
              (ProxySettings.mk HTTP UDP "localhost" 53 EmptyString EmptyString) with
      | TCP => RunTcpServer
                 (ProxySettings.mk HTTP UDP "localhost" 53 EmptyString EmptyString) listenPort
      | UDP => RunUdpServer
                 (ProxySettings.mk HTTP UDP "localhost" 53 EmptyString EmptyString) listenPort
      end /\
    prints_usage (main ["-r"; "udp"; "localhost"; " +53x"; "70000"] world0) = false.
Proof.
  apply (server_start_inversion ["-r"; "udp"; "localhost"; " +53x"; "70000"] world0).
  reflexivity.
Defined.

(** ** Options the switch has no case for *)

Lemma handle_option_default (l : locals) (c : ascii) (v : string) :
  ~ In c option_letters ->
  handle_option l (c, v) = inr [Stderr "Bad option"; PrintUsage].
Proof.
  intros Hc. unfold handle_option.
  repeat match goal with
  | |- context [Ascii.eqb c ?x] =>
      destruct (Ascii.eqb_spec c x) as [-> | _];
      [ exfalso; apply Hc; unfold option_letters; simpl; tauto | ]
  end.
  reflexivity.
Qed.

(** X10: when [getopt] delivers a letter that is none of t, r, u, p, P
    (the [?] it returns for an unknown option and for a missing argument
    is one), the run ends in [exit(1)] with the usage text written and no
    server started. *)
Theorem bad_option_exits (argv : list string) (w : World) (c : ascii) (v : string) :
  In (c, v) (fst (getopt (posixly_correct w) argv)) ->
  ~ In c option_letters ->
  result (main argv w) = Exit 1 /\
  prints_usage (main argv w) = true /\
  server_started (main argv w) = false.
Proof.
  intros Hin Hc.
  assert (Hex : exists out,
             option_loop initial_locals (fst (getopt (posixly_correct w) argv)) = inr out).
  { eapply option_loop_refused; [exact Hin |].
    intros l. rewrite (handle_option_default l c v Hc). eauto. }
  destruct Hex as [out Hout].
  rewrite (main_option_exit argv w out Hout).
  destruct (option_loop_exit _ _ _ Hout) as [msg ->].
  repeat split.
Qed.

Lemma bad_option_exits_witness :
  result (main ["-t"; "socks5"; "proxyserver"; "1080"; "10000"; "-u"] world0) = Exit 1 /\
  prints_usage (main ["-t"; "socks5"; "proxyserver"; "1080"; "10000"; "-u"] world0) = true /\
  server_started (main ["-t"; "socks5"; "proxyserver"; "1080"; "10000"; "-u"] world0) = false.
Proof.
  apply (bad_option_exits ["-t"; "socks5"; "proxyserver"; "1080"; "10000"; "-u"] world0
           "?"%char EmptyString).
  - simpl. right. left. reflexivity.
  - unfold option_letters. simpl. intros [H | [H | [H | [H | [H | []]]]]]; discriminate H.
Defined.

Lemma lookup_opt_letters (c : ascii) :
  lookup_opt optstring c = None <-> ~ In c option_letters.
Proof.
  unfold optstring, option_letters. cbn [lookup_opt In].
  repeat match goal with
  | |- context [Ascii.eqb c ?x] => destruct (Ascii.eqb_spec c x) as [-> | ?]
  end; cbn; split; intros H; try discriminate H; try reflexivity;
    try (exfalso; apply H; tauto); intuition congruence.
Qed.

(** X11: a command line whose first element is [-] followed by a
    character that is no option letter (and is not the element [--])
    ends at once: the run writes [Bad option] and the usage text and
    exits with status 1, whatever follows on the command line. *)
Theorem unknown_first_option (c : ascii) (r : string) (rest : list string) (w : World) :
  ~ In c option_letters ->
  String c r <> "-" ->
  main (String "-"%char (String c r) :: rest) w =
  {| trace := [Stderr "Bad option"; PrintUsage]; result := Exit 1 |}.
Proof.
  intros Hc Hdd. apply main_option_exit.
  assert (Hg : exists os, fst (getopt (posixly_correct w) (String "-"%char (String c r) :: rest))
                          = bad_opt :: os).
  { cbn [getopt].
    assert (Hne : String.eqb (String "-"%char (String c r)) "--" = false).
    { apply String.eqb_neq. intros H. apply Hdd. inversion H. reflexivity. }
    rewrite Hne. cbn [is_option_element scan_cluster].
    apply lookup_opt_letters in Hc. rewrite Hc.
    destruct (scan_cluster r) as [os need].
    destruct need as [c' |].
    - destruct rest as [| v rest']; [eexists; reflexivity |].
      destruct (getopt (posixly_correct w) rest'). eexists; reflexivity.
    - destruct (getopt (posixly_correct w) rest). eexists; reflexivity. }
  destruct Hg as [os ->]. reflexivity.
Qed.

Lemma unknown_first_option_witness :
  main (String "-"%char (String "h"%char "elp") :: ["proxyserver"; "8080"; "10000"]) world0 =
  {| trace := [Stderr "Bad option"; PrintUsage]; result := Exit 1 |}.
Proof.
  apply (unknown_first_option "h"%char "elp" ["proxyserver"; "8080"; "10000"] world0).
  - unfold option_letters. simpl. intros [H | [H | [H | [H | [H | []]]]]]; discriminate H.
  - discriminate.
Defined.

(** ** An argument written against its option *)

Lemma lookup_opt_with_argument (c : ascii) :
  lookup_opt optstring c = Some true ->
  c = "t"%char \/ c = "r"%char \/ c = "u"%char \/ c = "P"%char.
Proof.
  unfold optstring. cbn [lookup_opt].
  repeat match goal with
  | |- context [Ascii.eqb c ?x] => destruct (Ascii.eqb_spec c x) as [-> | ?]
  end; cbn; intros H; try discriminate H; auto.
Qed.

(** X12: for an option that takes a value, writing the value against the
    letter ([-tsocks5]) and writing it as the next element ([-t socks5])
    give the same run. *)
Theorem attached_option_argument (c : ascii) (v : string) (rest : list string) (w : World) :
  lookup_opt optstring c = Some true ->
  v <> EmptyString ->
  main (String "-"%char (String c v) :: rest) w =
  main (String "-"%char (String c EmptyString) :: v :: rest) w.
Proof.
  intros Hc Hv.
  assert (Hg : getopt (posixly_correct w) (String "-"%char (String c v) :: rest) =
               getopt (posixly_correct w) (String "-"%char (String c EmptyString) :: v :: rest)).
  { destruct v as [| x v']; [contradiction Hv; reflexivity |].
    cbn [getopt is_option_element scan_cluster]. rewrite Hc.
    destruct (lookup_opt_with_argument c Hc) as [-> | [-> | [-> | ->]]];
      cbn; destruct (getopt (posixly_correct w) rest); reflexivity. }
  unfold main. rewrite Hg. reflexivity.
Qed.

Lemma attached_option_argument_witness :
  main (String "-"%char (String "t"%char "socks5") :: ["proxyserver"; "1080"; "10000"]) world0 =
  main (String "-"%char (String "t"%char EmptyString)
          :: "socks5" :: ["proxyserver"; "1080"; "10000"]) world0.
Proof.
  apply (attached_option_argument "t"%char "socks5" ["proxyserver"; "1080"; "10000"] world0).
  - reflexivity.
  - discriminate.
Defined.

(** ** The password that the prompt gives *)

Lemma c_str_no_nul_inside (s : string) : mem_char NUL (c_str s) = false.
Proof.
  induction s as [| c r IH]; cbn [c_str]; [reflexivity |].
  destruct (Ascii.eqb c NUL) eqn:E; [reflexivity |].
  cbn [mem_char]. rewrite (Ascii.eqb_sym NUL c), E. exact IH.
Qed.

Lemma c_str_keeps_absent (c : ascii) (s : string) :
  mem_char c s = false -> mem_char c (c_str s) = false.
Proof.
  induction s as [| d r IH]; cbn [c_str mem_char]; [reflexivity |].
  intros H. apply orb_false_iff in H. destruct H as [Hd Hr].
  destruct (Ascii.eqb d NUL); [reflexivity |].
  cbn [mem_char]. rewrite Hd. exact (IH Hr).
Qed.

Lemma getline_from_no_newline (room : nat) (input : string) :
  mem_char LF (stored (getline_from room input)) = false.
Proof.
  revert room. induction input as [| c r IH]; intros room; cbn [getline_from].
  - reflexivity.
  - destruct (Ascii.eqb c LF) eqn:E; [reflexivity |].
    destruct room as [| room']; [reflexivity |].
    cbn [stored mem_char]. rewrite (Ascii.eqb_sym LF c), E. apply IH.
Qed.

Lemma c_str_length (s : string) : (String.length (c_str s) <= String.length s)%nat.
Proof.
  induction s as [| c r IH]; cbn [c_str]; [lia |].
  destruct (Ascii.eqb c NUL); cbn [String.length]; lia.
Qed.

(** X13: a password that comes from the prompt holds no newline and no
    NUL and has at most 255 characters, whatever stood on the standard
    input. *)
Theorem prompted_password_is_clean (argv : list string) (w : World) (s : ProxySettings.t) :
  prompts (main argv w) = true ->
  settings_of (main argv w) = Some s ->
  mem_char LF (password s) = false /\
  mem_char NUL (password s) = false /\
  (String.length (password s) <= 255)%nat.
Proof.
  intros Hp Hs. destruct (main_prompts argv w Hp) as (l & h & p & lp & _ & E).
  rewrite E in Hs. unfold after_prompt, prompt_password in Hs.
  destruct (stdin w) as [bytes |]; [| discriminate Hs].
  destruct (failbit (getline 256 bytes)); [discriminate Hs |].
  unfold settings_of, start_server in Hs. cbn in Hs.
  assert (Es : password s = c_str (stored (getline 256 bytes))).
  { destruct (l_proxiedProtocol l); inversion Hs; reflexivity. }
  rewrite Es. split; [| split].
  - apply c_str_keeps_absent. unfold getline. cbn [stored].
    apply getline_from_no_newline.
  - apply c_str_no_nul_inside.
  - pose proof (c_str_length (stored (getline 256 bytes))) as Hc.
    pose proof (getline_from_fits 255 bytes) as Hg.
    unfold getline in *. cbn [stored] in *. change (256 - 1)%nat with 255%nat in *. lia.
Qed.

Lemma prompted_password_is_clean_witness :
  mem_char LF (password (ProxySettings.mk HTTP TCP "proxyserver" 8080 EmptyString "ab")) = false /\
  mem_char NUL (password (ProxySettings.mk HTTP TCP "proxyserver" 8080 EmptyString "ab")) = false /\
  (String.length (password (ProxySettings.mk HTTP TCP "proxyserver" 8080 EmptyString "ab"))
   <= 255)%nat.
Proof.
  apply (prompted_password_is_clean ["-p"; "proxyserver"; "8080"; "10000"]
           (with_stdin (Input (line line_with_nul)) world0)); reflexivity.
Defined.

(** ** The port texts that std::stoi accepts *)

Lemma skip_space_all (ws s : string) :
  all_space ws = true -> skip_space (ws ++ s) = skip_space s.
Proof.
  induction ws as [| c r IH]; cbn [all_space String.append skip_space]; [reflexivity |].
  intros H. apply andb_true_iff in H. destruct H as [Hc Hr].
  rewrite Hc. exact (IH Hr).
Qed.

Lemma read_digits_stop (acc : Z) (rest : string) :
  no_digit_ahead rest = true -> read_digits acc true rest = Some acc.
Proof.
  destruct rest as [| c r]; cbn [no_digit_ahead read_digits]; [reflexivity |].
  intros H. apply negb_true_iff in H. rewrite H. reflexivity.
Qed.

Ltac digit_step IH :=
  cbn [DecimalString.NilEmpty.string_of_uint String.append read_digits Pos.of_uint_acc];
  match goal with
  | |- context [isdigit ?c] => change (isdigit c) with true
  end;
  cbv iota;
  match goal with
  | |- context [digit_value ?c] =>
      let v := eval vm_compute in (digit_value c) in
      change (digit_value c) with v
  end;
  match goal with
  | |- read_digits ?a true _ = Some (Z.pos (Pos.of_uint_acc _ ?p)) =>
      replace a with (Z.pos p) by lia
  end;
  apply IH.

Lemma read_digits_acc (u : Decimal.uint) (acc : positive) (rest : string) :
  no_digit_ahead rest = true ->
  read_digits (Z.pos acc) true (DecimalString.NilEmpty.string_of_uint u ++ rest) =
  Some (Z.pos (Pos.of_uint_acc u acc)).
Proof.
  intros Hrest. revert acc.
  induction u as [| u IH | u IH | u IH | u IH | u IH | u IH | u IH | u IH | u IH | u IH];
    intros acc; [apply read_digits_stop, Hrest | digit_step IH ..].
Qed.

Lemma read_digits_uint (u : Decimal.uint) (seen : bool) (rest : string) :
  no_digit_ahead rest = true ->
  seen = true \/ u <> Decimal.Nil ->
  read_digits 0 seen (DecimalString.NilEmpty.string_of_uint u ++ rest) =
  Some (Z.of_N (Pos.of_uint u)).
Proof.
  intros Hrest. revert seen.
  induction u as [| u IH | u IH | u IH | u IH | u IH | u IH | u IH | u IH | u IH | u IH];
    intros seen Hseen;
    cbn [DecimalString.NilEmpty.string_of_uint String.append read_digits Pos.of_uint];
    try (match goal with
         | |- context [isdigit ?c] => change (isdigit c) with true
         end; cbv iota).
  - destruct Hseen as [-> | H]; [| contradiction H; reflexivity].
    apply read_digits_stop, Hrest.
  - change (10 * 0 + digit_value "0") with 0. apply IH. left. reflexivity.
  - apply (read_digits_acc u 1 rest Hrest).
  - apply (read_digits_acc u 2 rest Hrest).
  - apply (read_digits_acc u 3 rest Hrest).
  - apply (read_digits_acc u 4 rest Hrest).
  - apply (read_digits_acc u 5 rest Hrest).
  - apply (read_digits_acc u 6 rest Hrest).
  - apply (read_digits_acc u 7 rest Hrest).
  - apply (read_digits_acc u 8 rest Hrest).
  - apply (read_digits_acc u 9 rest Hrest).
Qed.

Lemma to_uint_nonnil (n : N) : N.to_uint n <> Decimal.Nil.
Proof.
  destruct n as [| p]; cbn [N.to_uint]; [discriminate |].
  apply DecimalPos.Unsigned.to_uint_nonnil.
Qed.

(** The text of a number starts with a digit: [std::stoi] finds there
    neither white space nor a sign. *)
Lemma stoi_at_number (n : N) (rest : string) :
  no_digit_ahead rest = true ->
  stoi (to_string n ++ rest) =
  if Z.of_N n <=? INT_MAX then StoiValue (Z.of_N n) else StoiOutOfRange.
Proof.
  intros Hrest.
  pose proof (read_digits_uint (N.to_uint n) false rest Hrest
                (or_intror (to_uint_nonnil n))) as Hread.
  change (Pos.of_uint (N.to_uint n)) with (N.of_uint (N.to_uint n)) in Hread.
  rewrite DecimalN.Unsigned.of_to in Hread.
  pose proof (to_uint_nonnil n) as Hnn.
  unfold stoi, to_string in *.
  destruct (N.to_uint n) as [| u | u | u | u | u | u | u | u | u | u];
    [contradiction Hnn; reflexivity | ..];
    cbn [DecimalString.NilEmpty.string_of_uint String.append skip_space] in *;
    match goal with
    | |- context [isspace ?c] => change (isspace c) with false
    end; cbv iota; cbv beta iota zeta;
    rewrite Hread;
    (replace (INT_MIN <=? Z.of_N n) with true
       by (symmetry; apply Z.leb_le; unfold INT_MIN; lia));
    reflexivity.
Qed.

(** X14: [std::stoi] reads a port written in base ten whatever white
    space stands before it and whatever text that starts with no digit
    stands after it: the value is the number when it is at most
    [INT_MAX], and the conversion is out of range otherwise. *)
Theorem stoi_reads_decimal (ws rest : string) (n : N) :
  all_space ws = true ->
  no_digit_ahead rest = true ->
  stoi (ws ++ to_string n ++ rest) =
  if Z.of_N n <=? INT_MAX then StoiValue (Z.of_N n) else StoiOutOfRange.
Proof.
  intros Hws Hrest. rewrite <- (stoi_at_number n rest Hrest).
  unfold stoi. rewrite (skip_space_all ws _ Hws). reflexivity.
Qed.

Lemma stoi_reads_decimal_witness :
  stoi ("  " ++ to_string 8080 ++ "/tcp") =
  if Z.of_N 8080 <=? INT_MAX then StoiValue (Z.of_N 8080) else StoiOutOfRange.
Proof.
  apply (stoi_reads_decimal "  " "/tcp" 8080); reflexivity.
Defined.

(** ** The uncaught exception *)

(** X15: before a server is started, [main] ends in [std::terminate]
    exactly when every option was taken, there are three operands, and
    [std::stoi] finds the first port out of range, or reads the first and
    finds the second out of range; nothing has been written and no server
    has been started by then.  A first port without a number comes before
    a second one out of range: that run prints the usage text and exits.
    (What ends the process once a server runs is not covered.) *)
Theorem terminate_iff_out_of_range (argv : list string) (w : World) :
  (result (main argv w) = Terminate /\ server_started (main argv w) = false <->
   (exists l, option_loop initial_locals (fst (getopt (posixly_correct w) argv)) = inl l) /\
   exists proxyHost a1 a2,
     snd (getopt (posixly_correct w) argv) = [proxyHost; a1; a2] /\
     (stoi a1 = StoiOutOfRange \/
      ((exists n, stoi a1 = StoiValue n) /\ stoi a2 = StoiOutOfRange))) /\
  (result (main argv w) = Terminate -> trace (main argv w) = []).
Proof.
  assert (Hs : result (main argv w) = Terminate ->
               server_started (main argv w) = false).
  { unfold server_started. intros ->. reflexivity. }
  assert (Hiff : (result (main argv w) = Terminate /\
                  server_started (main argv w) = false) <->
                 result (main argv w) = Terminate) by tauto.
  rewrite Hiff. clear Hs Hiff.
  unfold main. destruct (getopt (posixly_correct w) argv) as [os operands]. cbn [fst snd].
  destruct (option_loop initial_locals os) as [l | out] eqn:Eloop.
  - destruct operands as [| h [| a1 [| a2 [| x rest]]]];
      try (split; [split; [discriminate | intros (_ & ? & ? & ? & H & _); discriminate H]
                  | discriminate]).
    destruct (stoi a1) as [p | |] eqn:E1.
    + destruct (stoi a2) as [lp | |] eqn:E2.
      * split.
        -- split.
           ++ destruct (l_promptPassword l).
              ** unfold prompt_password. destruct (stdin w) as [bytes |];
                   [destruct (failbit (getline 256 bytes)) |]; cbn;
                   unfold start_server; try destruct (l_proxiedProtocol l); discriminate.
              ** cbn. unfold start_server. destruct (l_proxiedProtocol l); discriminate.
           ++ intros (_ & h' & b1 & b2 & H & Hor). inversion H; subst.
              destruct Hor as [Hor | [_ Hor]]; congruence.
        -- destruct (l_promptPassword l).
           ++ unfold prompt_password. destruct (stdin w) as [bytes |];
                [destruct (failbit (getline 256 bytes)) |]; cbn;
                unfold start_server; try destruct (l_proxiedProtocol l); discriminate.
           ++ cbn. unfold start_server. destruct (l_proxiedProtocol l); discriminate.
      * split; [split; [discriminate |] | discriminate].
        intros (_ & h' & b1 & b2 & H & Hor). inversion H; subst.
        destruct Hor as [Hor | [_ Hor]]; congruence.
      * split; [split | reflexivity].
        -- intros _. split; [eauto |]. exists h, a1, a2. split; [reflexivity |].
           right. split; [eauto | assumption].
        -- reflexivity.
    + split; [split; [discriminate |] | discriminate].
      intros (_ & h' & b1 & b2 & H & Hor). inversion H; subst.
      destruct Hor as [Hor | [[n Hn] _]]; congruence.
    + split; [split | reflexivity].
      * intros _. split; [eauto |]. exists h, a1, a2. split; [reflexivity |].
        left. assumption.
      * reflexivity.
  - split; [split; [discriminate | intros ([l Hl] & _); discriminate Hl] | discriminate].
Qed.

(** * Base64 *)

Import Net.

Ltac div_lia := zify; Z.to_euclidean_division_equations; lia.

Lemma lor_low_bits (a b k : N) :
  (b < 2 ^ k -> N.lor (a * 2 ^ k) b = a * 2 ^ k + b)%N.
Proof.
  intros Hb.
  assert (Hland : N.land (a * 2 ^ k) b = 0%N).
  { apply N.bits_inj. intros m. rewrite N.land_spec, N.bits_0.
    destruct (N.ltb_spec m k) as [Hlt | Hge].
    - rewrite N.mul_pow2_bits_low by assumption. reflexivity.
    - rewrite <- (N.mod_small b (2 ^ k)) by assumption.
      rewrite N.mod_pow2_bits_high by assumption. apply andb_false_r. }
  rewrite (N.add_nocarry_lxor _ _ Hland). symmetry. apply N.lxor_lor, Hland.
Qed.

Lemma lor_disjoint (x y a k : N) :
  (x = a * 2 ^ k -> y < 2 ^ k -> N.lor x y = x + y)%N.
Proof. intros -> Hy. apply lor_low_bits, Hy. Qed.

Lemma group_value (a b c : N) :
  (b < 256 -> c < 256 ->
   N.lor (N.lor (N.shiftl a 16) (N.shiftl b 8)) c = a * 65536 + b * 256 + c)%N.
Proof.
  intros Hb Hc. rewrite !N.shiftl_mul_pow2.
  change (2 ^ 16)%N with 65536%N. change (2 ^ 8)%N with 256%N.
  rewrite (lor_disjoint (a * 65536) (b * 256) a 16)
    by (change (2 ^ 16)%N with 65536%N; lia).
  apply (lor_disjoint _ c (a * 256 + b) 8); change (2 ^ 8)%N with 256%N; lia.
Qed.

Lemma quad_value (a b c d : N) :
  (b < 64 -> c < 64 -> d < 64 ->
   quad a b c d = a * 262144 + b * 4096 + c * 64 + d)%N.
Proof.
  intros Hb Hc Hd. unfold quad. rewrite !N.shiftl_mul_pow2.
  change (2 ^ 18)%N with 262144%N. change (2 ^ 12)%N with 4096%N.
  change (2 ^ 6)%N with 64%N.
  rewrite (lor_disjoint (a * 262144) (b * 4096) a 18)
    by (change (2 ^ 18)%N with 262144%N; lia).
  rewrite (lor_disjoint _ (c * 64) (a * 64 + b) 12)
    by (change (2 ^ 12)%N with 4096%N; lia).
  apply (lor_disjoint _ d (a * 4096 + b * 64 + c) 6); change (2 ^ 6)%N with 64%N; lia.
Qed.

(** The four sextets of a 24-bit group, as numbers. *)
Lemma sextet_values (n : N) :
  (N.shiftr n 18 = n / 262144 /\
   N.land (N.shiftr n 12) 63 = (n / 4096) mod 64 /\
   N.land (N.shiftr n 6) 63 = (n / 64) mod 64 /\
   N.land n 63 = n mod 64)%N.
Proof.
  change 63%N with (N.ones 6). rewrite !N.land_ones, !N.shiftr_div_pow2.
  repeat split.
Qed.

Lemma octet_values (n : N) :
  octet (N.shiftr n 16) = ascii_of_N ((n / 65536) mod 256) /\
  octet (N.shiftr n 8) = ascii_of_N ((n / 256) mod 256) /\
  octet n = ascii_of_N (n mod 256).
Proof.
  unfold octet. change 255%N with (N.ones 8).
  rewrite !N.land_ones, !N.shiftr_div_pow2. repeat split.
Qed.

Lemma base64_value_digit (k : N) :
  (k < 64)%N -> base64_value (base64_digit k) = Some k.
Proof.
  intros Hk. rewrite <- (N2Nat.id k) at 2.
  unfold base64_digit. assert (Hm : (N.to_nat k < 64)%nat) by lia.
  revert Hm. generalize (N.to_nat k) as m. intros m Hm.
  do 64 (destruct m as [| m]; [reflexivity |]). lia.
Qed.

Lemma base64_digit_not_pad (k : N) :
  (k < 64)%N -> Ascii.eqb (base64_digit k) "="%char = false.
Proof.
  intros Hk. unfold base64_digit. assert (Hm : (N.to_nat k < 64)%nat) by lia.
  revert Hm. generalize (N.to_nat k) as m. intros m Hm.
  do 64 (destruct m as [| m]; [reflexivity |]). lia.
Qed.

Lemma sextets_spec (n : N) :
  (n < 16777216)%N ->
  exists v1 v2 v3 v4,
    sextets n = (base64_digit v1, base64_digit v2, base64_digit v3, base64_digit v4) /\
    (v1 < 64 /\ v2 < 64 /\ v3 < 64 /\ v4 < 64)%N /\
    (n = v1 * 262144 + v2 * 4096 + v3 * 64 + v4)%N.
Proof.
  intros Hn. unfold sextets.
  destruct (sextet_values n) as (E1 & E2 & E3 & E4). rewrite E1, E2, E3, E4.
  exists (n / 262144)%N, ((n / 4096) mod 64)%N, ((n / 64) mod 64)%N, (n mod 64)%N.
  split; [reflexivity |]. split; [repeat split; div_lia | div_lia].
Qed.

Lemma octets_of_group (n : N) (a b c : ascii) :
  (n = N_of_ascii a * 65536 + N_of_ascii b * 256 + N_of_ascii c)%N ->
  octet (N.shiftr n 16) = a /\ octet (N.shiftr n 8) = b /\ octet n = c.
Proof.
  intros Hn. destruct (octet_values n) as (E1 & E2 & E3). rewrite E1, E2, E3.
  pose proof (N_ascii_bounded a). pose proof (N_ascii_bounded b).
  pose proof (N_ascii_bounded c).
  replace ((n / 65536) mod 256)%N with (N_of_ascii a) by div_lia.
  replace ((n / 256) mod 256)%N with (N_of_ascii b) by div_lia.
  replace (n mod 256)%N with (N_of_ascii c) by div_lia.
  rewrite !ascii_N_embedding. repeat split.
Qed.

Lemma base64_decode_upto (n : nat) (s : string) :
  (String.length s <= n)%nat -> base64_decode (base64 s) = Some s.
Proof.
  revert s. induction n as [| n IH]; intros s Hlen.
  - destruct s; [reflexivity | cbn in Hlen; lia].
  - destruct s as [| a [| b [| c r]]]; cbn [base64].
    + reflexivity.
    + pose proof (N_ascii_bounded a) as Ha.
      rewrite N.shiftl_mul_pow2. change (2 ^ 16)%N with 65536%N.
      destruct (sextets_spec (N_of_ascii a * 65536)) as (v1 & v2 & v3 & v4 & E & Hv & Hsum);
        [lia |].
      rewrite E. cbn [base64_decode].
      destruct Hv as (H1 & H2 & H3 & H4).
      rewrite !base64_value_digit by assumption.
      rewrite quad_value by lia.
      destruct (octets_of_group (v1 * 262144 + v2 * 4096 + 0 * 64 + 0) a "000" "000")
        as (E1 & _); [cbn; div_lia |].
      rewrite E1. reflexivity.
    + pose proof (N_ascii_bounded a) as Ha. pose proof (N_ascii_bounded b) as Hb.
      rewrite <- (N.lor_0_r (N.lor _ _)). rewrite group_value by lia.
      destruct (sextets_spec (N_of_ascii a * 65536 + N_of_ascii b * 256 + 0))
        as (v1 & v2 & v3 & v4 & E & Hv & Hsum); [lia |].
      rewrite E. cbn [base64_decode].
      destruct Hv as (H1 & H2 & H3 & H4).
      rewrite !base64_value_digit, !base64_digit_not_pad by assumption.
      rewrite quad_value by lia.
      destruct (octets_of_group (v1 * 262144 + v2 * 4096 + v3 * 64 + 0) a b "000")
        as (E1 & E2 & _); [cbn; div_lia |].
      rewrite E1, E2. reflexivity.
    + pose proof (N_ascii_bounded a) as Ha. pose proof (N_ascii_bounded b) as Hb.
      pose proof (N_ascii_bounded c) as Hc.
      rewrite group_value by lia.
      destruct (sextets_spec (N_of_ascii a * 65536 + N_of_ascii b * 256 + N_of_ascii c))
        as (v1 & v2 & v3 & v4 & E & Hv & Hsum); [lia |].
      rewrite E. cbn [base64_decode].
      destruct Hv as (H1 & H2 & H3 & H4).
      rewrite !base64_value_digit, !base64_digit_not_pad by assumption.
      rewrite IH by (cbn in Hlen; lia).
      rewrite quad_value by lia.
      destruct (octets_of_group (v1 * 262144 + v2 * 4096 + v3 * 64 + v4) a b c)
        as (E1 & E2 & E3); [lia |].
      rewrite E1, E2, E3. reflexivity.
Qed.

(** Decoding the Base64 text of a string gives the string back. *)
Lemma base64_decode_encode (s : string) : base64_decode (base64 s) = Some s.
Proof. apply (base64_decode_upto (String.length s)). lia. Qed.

(** * The upstream protocols *)

Import Net.

(** ** What a handshake has written only grows *)

Lemma monotone_ret {A} (a : A) : monotone (ret a).
Proof. intros c. exists []. cbn. now rewrite app_nil_r. Qed.

Lemma monotone_fail {A} (e : error) : monotone (@fail A e).
Proof. intros c. exists []. cbn. now rewrite app_nil_r. Qed.

Lemma monotone_send (b : bytes) : monotone (send b).
Proof. intros c. exists b. reflexivity. Qed.

Lemma monotone_recv (n : nat) (e : error) : monotone (recv n e).
Proof.
  intros c. exists []. unfold recv.
  destruct (Nat.leb n (List.length (unread c))); cbn; now rewrite app_nil_r.
Qed.

Lemma monotone_recv_line (e : error) : monotone (recv_line e).
Proof.
  intros c. exists []. unfold recv_line.
  destruct (split_line (unread c)) as [[l r] |]; cbn; now rewrite app_nil_r.
Qed.

Lemma monotone_guard (b : bool) (e : error) : monotone (guard b e).
Proof. destruct b; [apply monotone_ret | apply monotone_fail]. Qed.

Lemma monotone_bind {A B} (m : M A) (k : A -> M B) :
  monotone m -> (forall a, monotone (k a)) -> monotone (bind m k).
Proof.
  intros Hm Hk c. unfold bind. destruct (Hm c) as [more1 H1].
  destruct (m c) as [[a | e] c'] eqn:E; cbn in H1.
  - destruct (Hk a c') as [more2 H2]. exists (more1 ++ more2).
    rewrite H2, H1. now rewrite app_assoc.
  - exists more1. exact H1.
Qed.

Ltac monotone :=
  repeat first
    [ apply monotone_ret | apply monotone_fail | apply monotone_send
    | apply monotone_recv | apply monotone_recv_line | apply monotone_guard
    | apply monotone_bind
    | match goal with
      | |- forall _, _ => intro
      | |- monotone (match ?x with _ => _ end) => destruct x
      end ].

Lemma monotone_recv_byte (e : error) : monotone (recv_byte e).
Proof. unfold recv_byte. monotone. Qed.

Lemma sends_first_send {A} (b : bytes) (k : unit -> M A) :
  (forall u, monotone (k u)) -> sends_first b (bind (send b) k).
Proof.
  intros Hk c. unfold bind, send.
  destruct (Hk tt {| sent := sent c ++ b; unread := unread c |}) as [more H].
  exists more. rewrite H. cbn. now rewrite app_assoc.
Qed.

Lemma sends_first_bind {A B} (b : bytes) (m : M A) (k : A -> M B) :
  sends_first b m -> (forall a, monotone (k a)) -> sends_first b (bind m k).
Proof.
  intros Hm Hk c. unfold bind. destruct (Hm c) as [more1 H1].
  destruct (m c) as [[a | e] c'] eqn:E; cbn in H1.
  - destruct (Hk a c') as [more2 H2]. exists (more1 ++ more2).
    rewrite H2, H1. now rewrite <- !app_assoc.
  - exists more1. exact H1.
Qed.

(** ** SOCKS5: the greeting *)

Lemma socks5_authenticate_sends_greeting (s : ProxySettings.t) :
  sends_first (socks5_greeting s) (socks5_authenticate s).
Proof.
  unfold socks5_authenticate. apply sends_first_send. monotone.
Qed.

Lemma socks5_read_bound_monotone : monotone socks5_read_bound.
Proof.
  unfold socks5_read_bound. monotone.
Qed.

Lemma socks5_handshake_sends_greeting (s : ProxySettings.t) (d : Destination) :
  sends_first (socks5_greeting s) (socks5_handshake s d).
Proof.
  unfold socks5_handshake. apply sends_first_bind.
  - apply socks5_authenticate_sends_greeting.
  - monotone.
Qed.

(** C7: whatever the upstream answers, a SOCKS5 handshake starts by
    writing the greeting, and the method list a server reads in it is the
    no-authentication method alone when no credentials are configured, and
    the no-authentication method followed by the username/password method
    when they are. *)
Theorem socks5_greeting_lists_methods (s : ProxySettings.t) (d : Destination)
    (answer : bytes) :
  proxyProtocol s = SOCKS5 ->
  (exists more,
     sent (snd (handshake s d {| sent := []; unread := answer |})) =
     socks5_greeting s ++ more) /\
  greeting_methods (socks5_greeting s) =
    Some (if credentials_configured s
          then [no_authentication; username_password]
          else [no_authentication]).
Proof.
  intros Hp. split.
  - unfold handshake. rewrite Hp.
    destruct (socks5_handshake_sends_greeting s d {| sent := []; unread := answer |})
      as [more H].
    exists more. exact H.
  - unfold socks5_greeting, socks5_methods.
    destruct (credentials_configured s); reflexivity.
Qed.

Lemma socks5_greeting_lists_methods_witness :
  (exists more,
     sent (snd (handshake bob example_org {| sent := []; unread := [] |})) =
     socks5_greeting bob ++ more) /\
  greeting_methods (socks5_greeting bob) =
    Some (if credentials_configured bob
          then [no_authentication; username_password]
          else [no_authentication]).
Proof.
  apply (socks5_greeting_lists_methods bob example_org []). reflexivity.
Defined.

Example socks5_greeting_bytes :
  socks5_greeting bob = [Byte.x05; Byte.x02; Byte.x00; Byte.x02] /\
  socks5_greeting (ProxySettings.mk SOCKS5 TCP "proxyserver" 1080 "bob" EmptyString) =
    [Byte.x05; Byte.x01; Byte.x00].
Proof. split; reflexivity. Qed.

(** ** Cleaner *)

Lemma socket_open_app (k : socket) (open : bool) (l1 l2 : list lifecycle) :
  socket_open k open (l1 ++ l2) = socket_open k (socket_open k open l1) l2.
Proof.
  revert open. induction l1 as [| e l1 IH]; intros open; [reflexivity |].
  destruct e; cbn; apply IH.
Qed.

Lemma socket_open_closed (k : socket) (open : bool) (ks : list socket) :
  In k ks -> socket_open k open (map Closed ks) = false.
Proof.
  revert open. induction ks as [| k' ks IH]; intros open Hin; [destruct Hin |].
  cbn. destruct (socket_eqb k k') eqn:E.
  - destruct (in_dec (fun a b : socket =>
                 ltac:(decide equality) : {a = b} + {a <> b}) k ks) as [Hin' | Hout].
    + apply IH, Hin'.
    + clear IH Hin. revert Hout. generalize false.
      induction ks as [| k2 ks IH2]; intros b Hout; [reflexivity |].
      cbn. destruct (socket_eqb k k2) eqn:E2.
      * exfalso. apply Hout. left. destruct k, k2; (reflexivity || discriminate E2).
      * apply IH2. intros H. apply Hout. right. exact H.
  - destruct Hin as [-> | Hin]; [destruct k; discriminate E |]. apply IH, Hin.
Qed.

(** Whatever the wrapped body does and returns, nothing stays held, and
    every socket the body held at its end is closed in the log. *)
Lemma Cleaner_releases {A} (body : resources -> A * resources) (r : resources) :
  held (snd (Cleaner body r)) = [] /\
  forall k, In k (held (snd (body r))) ->
            socket_open k true (log (snd (Cleaner body r))) = false.
Proof.
  unfold Cleaner. destruct (body r) as [a r']. cbn. split; [reflexivity |].
  intros k Hin. rewrite socket_open_app. apply socket_open_closed, Hin.
Qed.

(** ** SOCKS4: the reply *)

Lemma socks4_handshake_reply (s : ProxySettings.t) (d : Destination)
    (a b c e vn status p1 p2 i1 i2 i3 i4 : Byte.byte) (rest : bytes) :
  dest_address d = IPv4 a b c e ->
  fst (socks4_handshake s d
         {| sent := [];
            unread := vn :: status :: p1 :: p2 :: i1 :: i2 :: i3 :: i4 :: rest |}) =
  if Byte.eqb status socks4_granted then inl tt else inr ProxyRejected.
Proof.
  intros Hd. unfold socks4_handshake, socks4_request. rewrite Hd.
  cbn. destruct (Byte.eqb status socks4_granted); reflexivity.
Qed.

(** The handshake reads the eight bytes of the reply and no more. *)
Lemma socks4_handshake_unread (s : ProxySettings.t) (d : Destination)
    (a b c e vn status p1 p2 i1 i2 i3 i4 : Byte.byte) (rest : bytes) :
  dest_address d = IPv4 a b c e ->
  unread (snd (socks4_handshake s d
                 {| sent := [];
                    unread := vn :: status :: p1 :: p2 :: i1 :: i2 :: i3 :: i4 :: rest |})) =
  rest.
Proof.
  intros Hd. unfold socks4_handshake, socks4_request. rewrite Hd.
  cbn. destruct (Byte.eqb status socks4_granted); reflexivity.
Qed.

(** C8: in SOCKS4 mode, with an IPv4 destination and an upstream that
    answers with an eight-byte reply, the status byte 0x5A establishes the
    Tunnel and the relay starts; any other status byte fails the handshake
    with [ProxyRejected], no relay is started, and the upstream socket is
    closed, once, with nothing left held. *)
Theorem socks4_reply_status_decides (s : ProxySettings.t) (d : Destination)
    (a b c e vn status p1 p2 i1 i2 i3 i4 : Byte.byte) (evs : list relay_event) :
  proxyProtocol s = SOCKS4 ->
  dest_address d = IPv4 a b c e ->
  (status = Byte.x5a ->
     negotiated (fst (relay_context s d true [vn; status; p1; p2; i1; i2; i3; i4] evs)) = inl tt /\
     relayed (fst (relay_context s d true [vn; status; p1; p2; i1; i2; i3; i4] evs)) =
       Some (stream_relay evs) /\
     In RelayStarted (log (snd (relay_context s d true [vn; status; p1; p2; i1; i2; i3; i4] evs)))) /\
  (status <> Byte.x5a ->
     negotiated (fst (relay_context s d true [vn; status; p1; p2; i1; i2; i3; i4] evs)) =
       inr ProxyRejected /\
     relayed (fst (relay_context s d true [vn; status; p1; p2; i1; i2; i3; i4] evs)) = None /\
     ~ In RelayStarted (log (snd (relay_context s d true [vn; status; p1; p2; i1; i2; i3; i4] evs))) /\
     socket_open UpstreamSocket false
       (log (snd (relay_context s d true [vn; status; p1; p2; i1; i2; i3; i4] evs))) = false /\
     occurrences (Closed UpstreamSocket)
       (log (snd (relay_context s d true [vn; status; p1; p2; i1; i2; i3; i4] evs))) = 1%nat /\
     held (snd (relay_context s d true [vn; status; p1; p2; i1; i2; i3; i4] evs)) = []).
Proof.
  intros Hp Hd.
  pose proof (socks4_handshake_reply s d a b c e vn status p1 p2 i1 i2 i3 i4 [] Hd) as Hr.
  pose proof (socks4_handshake_unread s d a b c e vn status p1 p2 i1 i2 i3 i4 [] Hd) as Hu.
  unfold relay_context, Cleaner, relay_body, tunnel_events, handshake. rewrite Hp.
  destruct (socks4_handshake s d
              {| sent := []; unread := [vn; status; p1; p2; i1; i2; i3; i4] |})
    as [r w] eqn:E.
  cbn in Hr, Hu. subst r. split.
  - intros ->. cbn. rewrite Hu. repeat split. auto 10.
  - intros Hne.
    assert (Hb : Byte.eqb status socks4_granted = false).
    { destruct (Byte.eqb status socks4_granted) eqn:Eb; [| reflexivity].
      apply Byte.byte_dec_bl in Eb. contradiction. }
    rewrite Hb. cbn. repeat split.
    intros [H | [H | [H | [H | []]]]]; discriminate H.
Qed.

Lemma socks4_reply_status_decides_witness :
  (Byte.x5b = Byte.x5a ->
     negotiated (fst (relay_context carol example_org true
        [Byte.x00; Byte.x5b; Byte.x00; Byte.x00; Byte.x00; Byte.x00; Byte.x00; Byte.x00] [])) = inl tt /\
     relayed (fst (relay_context carol example_org true
        [Byte.x00; Byte.x5b; Byte.x00; Byte.x00; Byte.x00; Byte.x00; Byte.x00; Byte.x00] [])) =
       Some (stream_relay []) /\
     In RelayStarted (log (snd (relay_context carol example_org true
        [Byte.x00; Byte.x5b; Byte.x00; Byte.x00; Byte.x00; Byte.x00; Byte.x00; Byte.x00] [])))) /\
  (Byte.x5b <> Byte.x5a ->
     negotiated (fst (relay_context carol example_org true
        [Byte.x00; Byte.x5b; Byte.x00; Byte.x00; Byte.x00; Byte.x00; Byte.x00; Byte.x00] [])) =
       inr ProxyRejected /\
     relayed (fst (relay_context carol example_org true
        [Byte.x00; Byte.x5b; Byte.x00; Byte.x00; Byte.x00; Byte.x00; Byte.x00; Byte.x00] [])) = None /\
     ~ In RelayStarted (log (snd (relay_context carol example_org true
        [Byte.x00; Byte.x5b; Byte.x00; Byte.x00; Byte.x00; Byte.x00; Byte.x00; Byte.x00] []))) /\
     socket_open UpstreamSocket false
       (log (snd (relay_context carol example_org true
        [Byte.x00; Byte.x5b; Byte.x00; Byte.x00; Byte.x00; Byte.x00; Byte.x00; Byte.x00] []))) = false /\
     occurrences (Closed UpstreamSocket)
       (log (snd (relay_context carol example_org true
        [Byte.x00; Byte.x5b; Byte.x00; Byte.x00; Byte.x00; Byte.x00; Byte.x00; Byte.x00] []))) = 1%nat /\
     held (snd (relay_context carol example_org true
        [Byte.x00; Byte.x5b; Byte.x00; Byte.x00; Byte.x00; Byte.x00; Byte.x00; Byte.x00] [])) = []).
Proof.
  apply (socks4_reply_status_decides carol example_org
           Byte.x5d Byte.xb8 Byte.xd8 Byte.x22
           Byte.x00 Byte.x5b Byte.x00 Byte.x00 Byte.x00 Byte.x00 Byte.x00 Byte.x00 []);
    reflexivity.
Defined.

Example socks4_request_bytes :
  socks4_request carol example_org =
  Some ([Byte.x04; Byte.x01; Byte.x01; Byte.xbb; Byte.x5d; Byte.xb8; Byte.xd8; Byte.x22]
        ++ bytes_of_string "carol" ++ [Byte.x00]).
Proof. reflexivity. Qed.

Example socks4_rejected_log :
  log (snd (relay_context carol example_org true
        [Byte.x00; Byte.x5b; Byte.x00; Byte.x00; Byte.x00; Byte.x00; Byte.x00; Byte.x00] [])) =
  [Opened ClientSocket; Opened UpstreamSocket; Closed UpstreamSocket; Closed ClientSocket].
Proof. reflexivity. Qed.

(** ** StreamRelay *)





(** *** What the handshake leaves on the connection *)

Lemma split_line_spec (b l r : bytes) :
  split_line b = Some (l, r) -> b = l ++ Byte.x0a :: r /\ ~ In Byte.x0a l.
Proof.
  revert l. induction b as [| x b IH]; intros l; cbn [split_line]; [discriminate |].
  destruct (Byte.eqb x Byte.x0a) eqn:E.
  - intros H. inversion H; subst. apply Byte.byte_dec_bl in E. subst x.
    split; [reflexivity | intros []].
  - destruct (split_line b) as [[l' r'] |]; [| discriminate].
    intros H. inversion H; subst. destruct (IH l' eq_refl) as [Hb Hn].
    split; [cbn; now rewrite Hb |].
    intros [Hx | Hin]; [| exact (Hn Hin)].
    subst x. discriminate E.
Qed.













Example relay_example :
  to_upstream (stream_relay example_traffic) = bytes_of_string "GET / HTTP/1.1more" /\
  to_client (stream_relay example_traffic) = bytes_of_string "HTTP/1.1 200 OK".
Proof. split; reflexivity. Qed.

(** Each of the four variants has an upstream answer with which its
    handshake succeeds. *)
Example every_variant_can_succeed :
  fst (handshake (ProxySettings.mk DIRECT TCP "localhost" 0 EmptyString EmptyString)
         example_org {| sent := []; unread := [] |}) = inl tt /\
  fst (handshake alice example_org {| sent := []; unread := example_ok |}) = inl tt /\
  fst (handshake carol example_org
         {| sent := [];
            unread := [Byte.x00; Byte.x5a; Byte.x00; Byte.x00;
                       Byte.x00; Byte.x00; Byte.x00; Byte.x00] |}) = inl tt /\
  fst (handshake bob example_org
         {| sent := [];
            unread := [Byte.x05; Byte.x02; Byte.x01; Byte.x00;
                       Byte.x05; Byte.x00; Byte.x00; Byte.x01;
                       Byte.x00; Byte.x00; Byte.x00; Byte.x00; Byte.x00; Byte.x00] |}) = inl tt.
Proof. repeat split; reflexivity. Qed.

(** ** HTTP CONNECT: the request *)

Lemma append_assoc (a b c : string) : ((a ++ b) ++ c = a ++ (b ++ c))%string.
Proof. induction a as [| x a IH]; cbn; [reflexivity | now rewrite IH]. Qed.

Lemma length_append (a b : string) :
  String.length (a ++ b) = (String.length a + String.length b)%nat.
Proof. induction a as [| x a IH]; cbn; [reflexivity | now rewrite IH]. Qed.

Lemma mem_char_append (c : ascii) (a b : string) :
  mem_char c (a ++ b) = mem_char c a || mem_char c b.
Proof.
  induction a as [| x a IH]; cbn; [reflexivity |].
  rewrite IH. apply orb_assoc.
Qed.

Lemma split_crlf_line (l rest : string) :
  mem_char CR l = false ->
  split_crlf (l ++ CRLF ++ rest) = Some (l, rest).
Proof.
  induction l as [| c l IH]; intros H.
  - reflexivity.
  - cbn [mem_char] in H. apply orb_false_iff in H. destruct H as [Hc Hl].
    cbn [String.append split_crlf].
    rewrite (Ascii.eqb_sym c CR), Hc. cbn [andb].
    assert (E : exists e r', (l ++ CRLF ++ rest)%string = String e r').
    { destruct l; cbn; eauto. }
    destruct E as (e & r' & E). rewrite E. rewrite <- E.
    rewrite (IH Hl). reflexivity.
Qed.

Lemma head_lines_crlf_lines (lines : list string) (rest : string) (fuel : nat) :
  Forall plain_line lines ->
  (List.length lines < fuel)%nat ->
  head_lines fuel (crlf_lines lines ++ CRLF ++ rest) = Some (lines, rest).
Proof.
  revert fuel. induction lines as [| l lines IH]; intros fuel Hall Hfuel.
  - destruct fuel as [| fuel]; [cbn in Hfuel; lia |]. reflexivity.
  - destruct fuel as [| fuel]; [cbn in Hfuel; lia |].
    inversion Hall as [| ? ? [Hcr Hne] Hall']; subst.
    cbn [crlf_lines head_lines]. rewrite !append_assoc.
    rewrite (split_crlf_line l _ Hcr).
    destruct l as [| c l]; [contradiction Hne; reflexivity |].
    rewrite IH; [reflexivity | assumption | cbn in Hfuel; lia].
Qed.

Lemma length_crlf_lines (lines : list string) :
  (2 * List.length lines <= String.length (crlf_lines lines))%nat.
Proof.
  induction lines as [| l lines IH]; cbn [crlf_lines List.length]; [cbn; lia |].
  rewrite !length_append. cbn [String.length CRLF]. lia.
Qed.

(** A head made of plain lines reads back as those lines, and what
    stands after its blank line is left over. *)
Lemma message_head_crlf_lines (lines : list string) (rest : string) :
  Forall plain_line lines ->
  message_head (crlf_lines lines ++ CRLF ++ rest) = Some (lines, rest).
Proof.
  intros Hall. unfold message_head.
  apply head_lines_crlf_lines; [assumption |].
  rewrite length_append. pose proof (length_crlf_lines lines).
  rewrite length_append. cbn [String.length CRLF]. lia.
Qed.

(** *** No CR in decimals and in Base64 text *)

Lemma decimal_plain (n : N) : mem_char CR (decimal n) = false.
Proof.
  unfold decimal. generalize (N.to_uint n) as u.
  induction u; cbn; auto.
Qed.

Lemma base64_digit_plain (n : N) : Ascii.eqb CR (base64_digit n) = false.
Proof.
  unfold base64_digit. generalize (N.to_nat n) as k. intros k.
  do 64 (destruct k as [| k]; [reflexivity |]).
  reflexivity.
Qed.

Lemma base64_plain_upto (n : nat) (s : string) :
  (String.length s <= n)%nat -> mem_char CR (base64 s) = false.
Proof.
  revert s. induction n as [| n IH]; intros s Hlen.
  - destruct s; [reflexivity | cbn in Hlen; lia].
  - destruct s as [| a [| b [| c r]]]; cbn [base64]; unfold sextets;
      cbn [mem_char]; rewrite ?base64_digit_plain; try reflexivity.
    cbn [orb]. apply IH. cbn in Hlen. lia.
Qed.

Lemma base64_plain (s : string) : mem_char CR (base64 s) = false.
Proof. apply (base64_plain_upto (String.length s)). lia. Qed.

Lemma http_request_lines_plain (s : ProxySettings.t) (d : Destination) :
  mem_char CR (host_text (dest_address d)) = false ->
  Forall plain_line (http_request_lines s d).
Proof.
  intros Hhost. unfold http_request_lines, authority, proxy_authorization.
  repeat constructor.
  - rewrite !mem_char_append, Hhost, decimal_plain. reflexivity.
  - discriminate.
  - rewrite !mem_char_append, Hhost, decimal_plain. reflexivity.
  - discriminate.
  - destruct (credentials_configured s); repeat constructor.
    + rewrite mem_char_append, base64_plain. reflexivity.
    + discriminate.
Qed.

Lemma append_empty_r (a : string) : (a ++ EmptyString)%string = a.
Proof. induction a as [| x a IH]; cbn; [reflexivity | now rewrite IH]. Qed.

Lemma crlf_lines_ends (l : string) (lines : list string) :
  exists head, crlf_lines (l :: lines) = (head ++ CRLF)%string.
Proof.
  revert l. induction lines as [| l' lines IH]; intros l.
  - exists l. cbn [crlf_lines]. now rewrite append_empty_r.
  - destruct (IH l') as [head H]. exists (l ++ CRLF ++ head)%string.
    cbn [crlf_lines] in *. rewrite H. now rewrite !append_assoc.
Qed.

(** *** The handshake *)

Lemma http_handshake_run (s : ProxySettings.t) (d : Destination) (answer : bytes) :
  sent (snd (http_handshake s d {| sent := []; unread := answer |})) =
    bytes_of_string (http_request s d) /\
  fst (http_handshake s d {| sent := []; unread := answer |}) =
    if answers_2xx answer then inl tt else inr ProxyRejected.
Proof.
  unfold http_handshake, answers_2xx, bind, send, recv_line. cbn [sent unread app].
  destruct (split_line answer) as [[l r] |]; [| split; reflexivity].
  destruct (status_code (string_of_list_byte l)) as [code |]; [| split; reflexivity].
  unfold guard. destruct (is_2xx code); split; reflexivity.
Qed.

(** *** The host and the port read back *)

Lemma split_on_free (sep : ascii) (s : string) :
  mem_char sep s = false -> split_on sep s = [s].
Proof.
  induction s as [| c r IH]; cbn [mem_char split_on]; [reflexivity |].
  intros H. apply orb_false_iff in H. destruct H as [Hc Hr].
  rewrite (Ascii.eqb_sym c sep), Hc, (IH Hr). reflexivity.
Qed.

Lemma split_on_cons (sep : ascii) (x r : string) :
  mem_char sep x = false ->
  split_on sep (x ++ String sep r) = x :: split_on sep r.
Proof.
  induction x as [| c x IH]; cbn [mem_char String.append split_on].
  - intros _. rewrite Ascii.eqb_refl. reflexivity.
  - intros H. apply orb_false_iff in H. destruct H as [Hc Hx].
    rewrite (Ascii.eqb_sym c sep), Hc, (IH Hx). reflexivity.
Qed.

Lemma split_on_join (sep : ascii) (x : string) (parts : list string) :
  Forall (fun p => mem_char sep p = false) (x :: parts) ->
  split_on sep (join (String sep EmptyString) (x :: parts)) = x :: parts.
Proof.
  revert x. induction parts as [| y parts IH]; intros x Hall;
    inversion Hall as [| ? ? Hx Hrest]; subst.
  - cbn [join]. apply split_on_free, Hx.
  - change (join (String sep EmptyString) (x :: y :: parts))
      with (x ++ String sep (join (String sep EmptyString) (y :: parts)))%string.
    rewrite (split_on_cons sep x _ Hx), (IH y Hrest). reflexivity.
Qed.

Lemma mem_char_join (c : ascii) (sep : string) (parts : list string) :
  mem_char c sep = false ->
  Forall (fun p => mem_char c p = false) parts ->
  mem_char c (join sep parts) = false.
Proof.
  intros Hsep Hall. induction Hall as [| x parts Hx Hall IH]; [reflexivity |].
  destruct parts as [| y parts]; [exact Hx |].
  change (join sep (x :: y :: parts)) with (x ++ sep ++ join sep (y :: parts))%string.
  rewrite !mem_char_append, Hx, Hsep, IH. reflexivity.
Qed.

(** The text of a number in base ten holds digits only. *)
Lemma decimal_digits_only (c : ascii) (n : N) :
  isdigit c = false -> mem_char c (decimal n) = false.
Proof.
  intros Hc. unfold decimal. generalize (N.to_uint n) as u.
  induction u; cbn [DecimalString.NilEmpty.string_of_uint mem_char];
    [reflexivity | ..];
    match goal with
    | |- Ascii.eqb c ?k || _ = false =>
        destruct (Ascii.eqb_spec c k) as [-> | _]; [discriminate Hc | assumption]
    end.
Qed.

Lemma hexadecimal_no_colon (n : N) : mem_char ":"%char (hexadecimal n) = false.
Proof.
  unfold hexadecimal. generalize (N.to_hex_uint n) as u.
  induction u; cbn; auto.
Qed.

Lemma hexadecimal_plain (n : N) : mem_char CR (hexadecimal n) = false.
Proof.
  unfold hexadecimal. generalize (N.to_hex_uint n) as u.
  induction u; cbn; auto.
Qed.

Lemma read_decimal_decimal (n : N) : read_decimal (decimal n) = Some n.
Proof.
  assert (Hne : decimal n <> EmptyString).
  { unfold decimal. pose proof (to_uint_nonnil n) as Hn.
    destruct (N.to_uint n); [contradiction Hn; reflexivity | discriminate ..]. }
  unfold read_decimal. destruct (decimal n) eqn:E; [contradiction Hne; reflexivity |].
  rewrite <- E. unfold decimal. rewrite DecimalString.NilEmpty.usu. cbn [option_map].
  now rewrite DecimalN.Unsigned.of_to.
Qed.

Lemma read_octet_decimal (x : Byte.byte) :
  read_octet (decimal (Byte.to_N x)) = Some x.
Proof.
  unfold read_octet. rewrite read_decimal_decimal. apply Byte.of_to_N.
Qed.

Lemma read_hexadecimal_hexadecimal (n : N) :
  read_hexadecimal (hexadecimal n) = Some n.
Proof.
  assert (Hne : hexadecimal n <> EmptyString).
  { unfold hexadecimal.
    assert (Hn : N.to_hex_uint n <> Hexadecimal.Nil).
    { destruct n as [| p]; cbn [N.to_hex_uint]; [discriminate |].
      apply HexadecimalPos.Unsigned.to_uint_nonnil. }
    destruct (N.to_hex_uint n); [contradiction Hn; reflexivity | discriminate ..]. }
  unfold read_hexadecimal. destruct (hexadecimal n) eqn:E; [contradiction Hne; reflexivity |].
  rewrite <- E. unfold hexadecimal. rewrite HexadecimalString.NilEmpty.usu.
  cbn [option_map]. now rewrite HexadecimalN.Unsigned.of_to.
Qed.

(** The host text of an address reads back as the address. *)
Lemma host_text_reads (a : address) :
  (forall groups, a = IPv6 groups -> groups <> []) ->
  host_reads_as a (host_text a).
Proof.
  intros H6. destruct a as [a b c e | groups | name]; cbn [host_reads_as host_text].
  - cbn [map]. change "."%string with (String "."%char EmptyString).
    rewrite split_on_join.
    + cbn [map]. now rewrite !read_octet_decimal.
    + repeat constructor; apply decimal_digits_only; reflexivity.
  - exists (join ":" (map hexadecimal groups)). split; [reflexivity |].
    destruct groups as [| g groups]; [contradiction (H6 [] eq_refl); reflexivity |].
    change ":"%string with (String ":"%char EmptyString). cbn [map].
    rewrite split_on_join.
    + cbn [map]. rewrite read_hexadecimal_hexadecimal. f_equal. clear H6.
      induction groups as [| g' groups IH]; cbn [map]; [reflexivity |].
      now rewrite read_hexadecimal_hexadecimal, IH.
    + constructor; [apply hexadecimal_no_colon |].
      apply Forall_forall. intros p Hp. apply in_map_iff in Hp.
      destruct Hp as (g' & <- & _). apply hexadecimal_no_colon.
  - reflexivity.
Qed.

Lemma host_text_plain (a : address) :
  (forall name, a = Domain name -> mem_char CR name = false) ->
  mem_char CR (host_text a) = false.
Proof.
  intros Hd. destruct a as [a b c e | groups | name]; cbn [host_text].
  - apply mem_char_join; [reflexivity |].
    cbn [map]. repeat constructor; apply decimal_plain.
  - rewrite !mem_char_append.
    rewrite (mem_char_join CR ":" (map hexadecimal groups)); [reflexivity .. |].
    apply Forall_forall. intros p Hp. apply in_map_iff in Hp.
    destruct Hp as (g' & <- & _). apply hexadecimal_plain.
  - apply Hd. reflexivity.
Qed.

(** *** The status line *)

Lemma isdigit_chars (c : ascii) :
  isdigit c = true <-> In c (list_ascii_of_string "0123456789").
Proof.
  split.
  - destruct c as [[] [] [] [] [] [] [] []]; intros H; try discriminate H;
      cbn; repeat (first [left; reflexivity | right]).
  - cbn. intros H. repeat (destruct H as [<- | H]; [reflexivity |]). contradiction H.
Qed.

Lemma isdigit_code (c : ascii) :
  isdigit c = true -> (48 <= N_of_ascii c <= 57)%N.
Proof.
  unfold isdigit, nat_of_ascii. intros H. apply andb_true_iff in H.
  destruct H as [H1 H2]. apply Nat.leb_le in H1. apply Nat.leb_le in H2. lia.
Qed.

Lemma digits_value_three (a x y : ascii) :
  digits_value 0 (String a (String x (String y EmptyString))) =
  if isdigit a && isdigit x && isdigit y
  then Some (100 * (N_of_ascii a - 48) + 10 * (N_of_ascii x - 48) + (N_of_ascii y - 48))%N
  else None.
Proof.
  cbn [digits_value].
  destruct (isdigit a), (isdigit x), (isdigit y); cbn [andb]; try reflexivity.
  f_equal. lia.
Qed.

(** Three digits are worth a number from 200 to 299 when the first is 2. *)
Lemma digits_value_2xx (a x y : ascii) :
  (exists code, digits_value 0 (String a (String x (String y EmptyString))) = Some code /\
                is_2xx code = true) <->
  a = "2"%char /\ isdigit x = true /\ isdigit y = true.
Proof.
  rewrite digits_value_three. split.
  - intros (code & H & H2).
    destruct (isdigit a) eqn:Ea; [| discriminate H].
    destruct (isdigit x) eqn:Ex; [| discriminate H].
    destruct (isdigit y) eqn:Ey; [| discriminate H].
    cbn [andb] in H. apply (f_equal (fun o => match o with Some n => n | None => 0%N end)) in H.
    subst code. unfold is_2xx in H2. apply andb_true_iff in H2.
    destruct H2 as [Hlo Hhi]. apply N.leb_le in Hlo. apply N.ltb_lt in Hhi.
    apply isdigit_code in Ea, Ex, Ey.
    assert (Ha : N_of_ascii a = 50%N) by lia.
    repeat split. rewrite <- (ascii_N_embedding a), Ha. reflexivity.
  - intros (-> & Ex & Ey). rewrite Ex, Ey. change (isdigit "2") with true.
    change (N_of_ascii "2") with 50%N. cbn [andb].
    eexists. split; [reflexivity |].
    apply isdigit_code in Ex, Ey. unfold is_2xx. apply andb_true_iff.
    split; [apply N.leb_le | apply N.ltb_lt]; lia.
Qed.

Lemma prefix_inv (p s : string) :
  String.prefix p s = true -> exists r, s = (p ++ r)%string.
Proof.
  revert s. induction p as [| c p IH]; intros s.
  - intros _. now exists s.
  - destruct s as [| e s]; cbn [String.prefix String.append]; [discriminate |].
    destruct (ascii_dec c e) as [<- | _]; [| discriminate].
    intros H. destruct (IH s H) as [r ->]. now exists r.
Qed.

Lemma after_space_inv (s r : string) :
  after_space s = Some r ->
  exists ver, s = (ver ++ String " " r)%string /\ mem_char " " ver = false.
Proof.
  induction s as [| c s IH]; cbn [after_space]; [discriminate |].
  destruct (Ascii.eqb c " ") eqn:E.
  - intros [= ->]. apply Ascii.eqb_eq in E. subst c. now exists EmptyString.
  - intros H. destruct (IH H) as (ver & -> & Hv). exists (String c ver).
    split; [reflexivity |]. cbn [mem_char]. now rewrite (Ascii.eqb_sym " " c), E.
Qed.

Lemma after_space_intro (ver r : string) :
  mem_char " " ver = false -> after_space (ver ++ String " " r) = Some r.
Proof.
  induction ver as [| c ver IH]; cbn [mem_char String.append after_space].
  - reflexivity.
  - intros H. apply orb_false_iff in H. destruct H as [Hc Hv].
    now rewrite (Ascii.eqb_sym c " "), Hc, (IH Hv).
Qed.

Lemma substring_whole (t : string) : String.substring 0 (String.length t) t = t.
Proof.
  induction t as [| c t IH]; cbn [String.substring String.length]; [reflexivity |].
  now rewrite IH.
Qed.

(** The status of a line [HTTP/version], a space, and at least three
    characters. *)
Lemma status_code_long (ver : string) (a x y : ascii) (tail : string) :
  mem_char " " ver = false ->
  status_code ("HTTP/" ++ ver ++ String " " (String a (String x (String y tail)))) =
  match tail with
  | EmptyString | String " "%char _ | String "013"%char EmptyString =>
      digits_value 0 (String a (String x (String y EmptyString)))
  | _ => None
  end.
Proof.
  intros Hv. unfold status_code.
  change (String.prefix "HTTP/" ("HTTP/" ++ ver ++ String " " (String a (String x (String y tail)))))
    with (String.prefix EmptyString (ver ++ String " " (String a (String x (String y tail))))).
  change (after_space ("HTTP/" ++ ver ++ String " " (String a (String x (String y tail)))))
    with (after_space (ver ++ String " " (String a (String x (String y tail))))).
  rewrite (after_space_intro ver _ Hv).
  replace (String.prefix EmptyString (ver ++ String " " (String a (String x (String y tail)))))
    with true by (now destruct ver).
  cbn [String.substring String.length Nat.sub Nat.eqb].
  replace (String.substring 0 0 tail) with EmptyString by (now destruct tail).
  rewrite Nat.sub_0_r, substring_whole. reflexivity.
Qed.

Lemma status_code_short (ver r : string) :
  mem_char " " ver = false -> (String.length r < 3)%nat ->
  status_code ("HTTP/" ++ ver ++ String " " r) = None.
Proof.
  intros Hv Hr. unfold status_code.
  change (after_space ("HTTP/" ++ ver ++ String " " r))
    with (after_space (ver ++ String " " r)).
  rewrite (after_space_intro ver _ Hv).
  destruct (String.prefix "HTTP/" ("HTTP/" ++ ver ++ String " " r)); [| reflexivity].
  destruct r as [| a [| x [| y tail]]]; cbn in Hr |- *; try reflexivity. lia.
Qed.

(** A line carries a 2xx status exactly when it is [HTTP/version], a
    space, the digit 2 and two more digits, and then ends, or goes on with
    a space, or ends with a CR. *)
Lemma status_code_2xx (line : string) :
  (exists code, status_code line = Some code /\ is_2xx code = true) <->
  exists ver x y tail,
    line = ("HTTP/" ++ ver ++ " " ++ String "2" (String x (String y tail)))%string /\
    mem_char " " ver = false /\
    In x (list_ascii_of_string "0123456789") /\
    In y (list_ascii_of_string "0123456789") /\
    (tail = EmptyString \/ tail = String CR EmptyString \/
     exists reason, tail = String " " reason).
Proof.
  split.
  - intros (code & Hc & H2).
    destruct (String.prefix "HTTP/" line) eqn:Hp;
      [| unfold status_code in Hc; rewrite Hp in Hc; discriminate Hc].
    apply prefix_inv in Hp. destruct Hp as [r0 ->].
    destruct (after_space r0) as [r |] eqn:Ha.
    2:{ unfold status_code in Hc.
        change (after_space ("HTTP/" ++ r0)) with (after_space r0) in Hc.
        rewrite Ha in Hc. destruct (String.prefix "HTTP/" ("HTTP/" ++ r0)); discriminate Hc. }
    apply after_space_inv in Ha. destruct Ha as (ver & -> & Hv).
    destruct r as [| a [| x [| y tail]]];
      try (rewrite status_code_short in Hc; [discriminate Hc | exact Hv | cbn; lia]).
    rewrite (status_code_long ver a x y tail Hv) in Hc.
    assert (Hd : exists code, digits_value 0 (String a (String x (String y EmptyString)))
                              = Some code /\ is_2xx code = true).
    { exists code. split; [| exact H2].
      destruct tail as [| e t]; [exact Hc |].
      destruct e as [[] [] [] [] [] [] [] []]; try discriminate Hc; try exact Hc.
      destruct t; [exact Hc | discriminate Hc]. }
    apply digits_value_2xx in Hd. destruct Hd as (-> & Hx & Hy).
    exists ver, x, y, tail. split; [reflexivity |]. split; [exact Hv |].
    split; [now apply isdigit_chars |]. split; [now apply isdigit_chars |].
    destruct tail as [| e t]; [now left |]. right.
    destruct e as [[] [] [] [] [] [] [] []]; try discriminate Hc.
    + destruct t; [now left | discriminate Hc].
    + right. now exists t.
  - intros (ver & x & y & tail & -> & Hv & Hx & Hy & Ht).
    apply isdigit_chars in Hx, Hy.
    change ("HTTP/" ++ ver ++ " " ++ String "2" (String x (String y tail)))%string
      with ("HTTP/" ++ ver ++ String " " (String "2" (String x (String y tail))))%string.
    rewrite (status_code_long ver "2" x y tail Hv).
    destruct (proj2 (digits_value_2xx "2" x y) (conj eq_refl (conj Hx Hy)))
      as (code & Hc & H2).
    exists code. split; [| exact H2].
    destruct Ht as [-> | [-> | [reason ->]]]; exact Hc.
Qed.

Lemma list_byte_of_string_cons (c : ascii) (r : string) :
  list_byte_of_string (String c r) = byte_of_ascii c :: list_byte_of_string r.
Proof. reflexivity. Qed.

(** A text holds a line feed exactly when its bytes hold the byte 0x0A. *)
Lemma mem_char_lf_bytes (s : string) :
  mem_char LF s = false <-> ~ In Byte.x0a (list_byte_of_string s).
Proof.
  induction s as [| c r IH]; [cbn; tauto |].
  rewrite list_byte_of_string_cons. cbn [mem_char In].
  rewrite orb_false_iff, IH. split.
  - intros [Hc Hr] [Hx | Hin]; [| exact (Hr Hin)].
    apply (f_equal ascii_of_byte) in Hx. rewrite ascii_of_byte_of_ascii in Hx.
    subst c. discriminate Hc.
  - intros H. split; [| intros Hin; apply H; now right].
    destruct (Ascii.eqb_spec LF c) as [<- | _]; [| reflexivity].
    exfalso. apply H. left. reflexivity.
Qed.

Lemma split_line_intro (l more : bytes) :
  ~ In Byte.x0a l -> split_line (l ++ Byte.x0a :: more) = Some (l, more).
Proof.
  induction l as [| x l IH]; intros Hn; cbn [app split_line]; [reflexivity |].
  destruct (Byte.eqb x Byte.x0a) eqn:E.
  - apply Byte.byte_dec_bl in E. exfalso. apply Hn. now left.
  - rewrite IH; [reflexivity |]. intros Hin. apply Hn. now right.
Qed.

Lemma digit_not_lf (x : ascii) :
  In x (list_ascii_of_string "0123456789") -> Ascii.eqb LF x = false.
Proof.
  cbn. intros H. repeat (destruct H as [<- | H]; [reflexivity |]). contradiction H.
Qed.

Lemma status_line_no_lf (ver : string) (x y : ascii) (tail : string) :
  In x (list_ascii_of_string "0123456789") ->
  In y (list_ascii_of_string "0123456789") ->
  mem_char LF ("HTTP/" ++ ver ++ " " ++ String "2" (String x (String y tail))) = false <->
  mem_char LF ver = false /\ mem_char LF tail = false.
Proof.
  intros Hx Hy.
  change (mem_char LF ("HTTP/" ++ ver ++ " " ++ String "2" (String x (String y tail))))
    with (mem_char LF (ver ++ String " " (String "2" (String x (String y tail))))).
  rewrite mem_char_append. cbn [mem_char].
  rewrite (digit_not_lf x Hx), (digit_not_lf y Hy).
  change (Ascii.eqb LF " ") with false. change (Ascii.eqb LF "2") with false.
  cbn [orb]. apply orb_false_iff.
Qed.

(** The answers that [http_handshake] takes for a grant: one line up to
    the first line feed that is a status line with a 2xx status. *)
Lemma answers_2xx_spec (answer : bytes) :
  answers_2xx answer = true <->
  exists ver x y tail more,
    answer = list_byte_of_string
               ("HTTP/" ++ ver ++ " " ++ String "2" (String x (String y tail)))
             ++ Byte.x0a :: more /\
    mem_char " " ver = false /\ mem_char LF ver = false /\ mem_char LF tail = false /\
    In x (list_ascii_of_string "0123456789") /\
    In y (list_ascii_of_string "0123456789") /\
    (tail = EmptyString \/ tail = String CR EmptyString \/
     exists reason, tail = String " " reason).
Proof.
  unfold answers_2xx. split.
  - destruct (split_line answer) as [[l r] |] eqn:Hs; [| discriminate].
    apply split_line_spec in Hs. destruct Hs as [-> Hn].
    destruct (status_code (string_of_list_byte l)) as [code |] eqn:Hc; [| discriminate].
    intros H2.
    destruct (proj1 (status_code_2xx (string_of_list_byte l)))
      as (ver & x & y & tail & Hl & Hv & Hx & Hy & Ht); [now exists code |].
    rewrite <- (list_byte_of_string_of_list_byte l), Hl in Hn.
    apply mem_char_lf_bytes, (status_line_no_lf ver x y tail Hx Hy) in Hn.
    exists ver, x, y, tail, r. rewrite <- Hl, list_byte_of_string_of_list_byte.
    tauto.
  - intros (ver & x & y & tail & more & -> & Hv & Hlv & Hlt & Hx & Hy & Ht).
    rewrite split_line_intro.
    2:{ apply mem_char_lf_bytes, (status_line_no_lf ver x y tail Hx Hy). now split. }
    rewrite string_of_list_byte_of_string.
    destruct (proj2 (status_code_2xx
                       ("HTTP/" ++ ver ++ " " ++ String "2" (String x (String y tail)))))
      as (code & Hc & H2).
    { exists ver, x, y, tail. tauto. }
    now rewrite Hc.
Qed.

(** C6: in HTTP mode, for a destination whose domain name holds no CR
    (and whose IPv6 address has a group) and whatever the upstream answers:
    the bytes written, read back line by line up to the blank line, are the
    line [CONNECT host:port HTTP/1.1], the header [Host: host:port] and the
    authorization lines, with one CR LF more after the blank line; [host]
    read back octet by octet, group by group or as a name is the
    destination's address and [port] read in base ten is its port; when
    the username and the password are both non-empty the authorization
    lines are the one header [Proxy-Authorization: Basic] followed by a
    text that the Base64 decoder turns into [user:pass], which for alice
    and secret is [YWxpY2U6c2VjcmV0]; when either is empty there is no such
    line.  The handshake succeeds exactly when the answer's first line, up
    to the first line feed, is [HTTP/version], a space, the digit 2 and two
    more digits, followed by the end of the line, a CR or a space; every
    other answer fails with [ProxyRejected]. *)
Theorem http_connect_handshake (s : ProxySettings.t) (d : Destination)
    (answer : bytes) :
  proxyProtocol s = HTTP ->
  (forall name, dest_address d = Domain name -> mem_char CR name = false) ->
  (forall groups, dest_address d = IPv6 groups -> groups <> []) ->
  (exists host port_text auth,
     host_reads_as (dest_address d) host /\
     read_decimal port_text = Some (dest_port d) /\
     message_head
       (string_of_list_byte
          (sent (snd (handshake s d {| sent := []; unread := answer |})))) =
       Some ([("CONNECT " ++ host ++ ":" ++ port_text ++ " HTTP/1.1")%string;
              ("Host: " ++ host ++ ":" ++ port_text)%string] ++ auth, CRLF) /\
     (username s <> EmptyString /\ password s <> EmptyString ->
      exists cred,
        auth = [("Proxy-Authorization: Basic " ++ cred)%string] /\
        base64_decode cred = Some (username s ++ ":" ++ password s)%string /\
        (username s = "alice" -> password s = "secret" ->
         cred = "YWxpY2U6c2VjcmV0")) /\
     (username s = EmptyString \/ password s = EmptyString -> auth = [])) /\
  (fst (handshake s d {| sent := []; unread := answer |}) = inl tt <->
   exists ver x y tail more,
     answer = list_byte_of_string
                ("HTTP/" ++ ver ++ " " ++ String "2" (String x (String y tail)))
              ++ Byte.x0a :: more /\
     mem_char " " ver = false /\ mem_char LF ver = false /\ mem_char LF tail = false /\
     In x (list_ascii_of_string "0123456789") /\
     In y (list_ascii_of_string "0123456789") /\
     (tail = EmptyString \/ tail = String CR EmptyString \/
      exists reason, tail = String " " reason)) /\
  (fst (handshake s d {| sent := []; unread := answer |}) <> inl tt ->
   fst (handshake s d {| sent := []; unread := answer |}) = inr ProxyRejected).
Proof.
  intros Hp Hname Hgroups. unfold handshake. rewrite Hp.
  destruct (http_handshake_run s d answer) as [Hsent Hres].
  rewrite Hsent, Hres. split; [| split].
  - exists (host_text (dest_address d)), (decimal (dest_port d)),
      (if credentials_configured s then [proxy_authorization s] else []).
    split; [apply host_text_reads, Hgroups |].
    split; [apply read_decimal_decimal |].
    split; [| split].
    + unfold bytes_of_string. rewrite string_of_list_byte_of_string.
      unfold http_request. rewrite message_head_crlf_lines.
      * unfold http_request_lines, authority. now rewrite !append_assoc.
      * apply http_request_lines_plain, host_text_plain, Hname.
    + intros [Hu Hw]. unfold credentials_configured.
      apply String.eqb_neq in Hu, Hw. rewrite Hu, Hw. cbn [negb andb].
      exists (base64 (username s ++ ":" ++ password s)).
      split; [reflexivity |]. split; [apply base64_decode_encode |].
      intros -> ->. reflexivity.
    + unfold credentials_configured. intros [-> | ->]; cbn [String.eqb negb andb];
        [reflexivity |].
      now rewrite andb_false_r.
  - rewrite <- answers_2xx_spec. destruct (answers_2xx answer); split; congruence.
  - destruct (answers_2xx answer); [intros H; now contradiction H | reflexivity].
Qed.

Lemma http_connect_handshake_witness :
  (exists host port_text auth,
     host_reads_as (dest_address example_name) host /\
     read_decimal port_text = Some (dest_port example_name) /\
     message_head
       (string_of_list_byte
          (sent (snd (handshake alice example_name
                        {| sent := []; unread := example_ok |})))) =
       Some ([("CONNECT " ++ host ++ ":" ++ port_text ++ " HTTP/1.1")%string;
              ("Host: " ++ host ++ ":" ++ port_text)%string] ++ auth, CRLF) /\
     (username alice <> EmptyString /\ password alice <> EmptyString ->
      exists cred,
        auth = [("Proxy-Authorization: Basic " ++ cred)%string] /\
        base64_decode cred = Some (username alice ++ ":" ++ password alice)%string /\
        (username alice = "alice" -> password alice = "secret" ->
         cred = "YWxpY2U6c2VjcmV0")) /\
     (username alice = EmptyString \/ password alice = EmptyString -> auth = [])) /\
  (fst (handshake alice example_name {| sent := []; unread := example_ok |}) = inl tt <->
   exists ver x y tail more,
     example_ok = list_byte_of_string
                    ("HTTP/" ++ ver ++ " " ++ String "2" (String x (String y tail)))
                  ++ Byte.x0a :: more /\
     mem_char " " ver = false /\ mem_char LF ver = false /\ mem_char LF tail = false /\
     In x (list_ascii_of_string "0123456789") /\
     In y (list_ascii_of_string "0123456789") /\
     (tail = EmptyString \/ tail = String CR EmptyString \/
      exists reason, tail = String " " reason)) /\
  (fst (handshake alice example_name {| sent := []; unread := example_ok |}) <> inl tt ->
   fst (handshake alice example_name {| sent := []; unread := example_ok |}) =
     inr ProxyRejected).
Proof.
  apply (http_connect_handshake alice example_name example_ok).
  - reflexivity.
  - intros name H. injection H as <-. reflexivity.
  - intros groups H. discriminate H.
Defined.

Example http_request_alice :
  http_request alice example_org =
  ("CONNECT 93.184.216.34:443 HTTP/1.1" ++ CRLF ++
   "Host: 93.184.216.34:443" ++ CRLF ++
   "Proxy-Authorization: Basic YWxpY2U6c2VjcmV0" ++ CRLF ++ CRLF ++ CRLF)%string.
Proof. reflexivity. Qed.

Example http_request_anonymous :
  http_request (ProxySettings.mk HTTP TCP "proxyserver" 8080 EmptyString EmptyString)
    example_name =
  ("CONNECT example.org:443 HTTP/1.1" ++ CRLF ++
   "Host: example.org:443" ++ CRLF ++ CRLF ++ CRLF)%string.
Proof. reflexivity. Qed.

Example host_text_examples :
  host_text (IPv4 Byte.x5d Byte.xb8 Byte.xd8 Byte.x22) = "93.184.216.34" /\
  host_text (IPv6 [8193; 3512; 0; 0; 0; 0; 0; 1]%N) = "[2001:db8:0:0:0:0:0:1]" /\
  host_reads_as (IPv6 [8193; 3512; 0; 0; 0; 0; 0; 1]%N) "[2001:db8:0:0:0:0:0:1]" /\
  ~ host_reads_as (IPv4 Byte.x5d Byte.xb8 Byte.xd8 Byte.x22) "93.184.216" /\
  read_decimal "443" = Some 443%N /\ read_decimal EmptyString = None.
Proof.
  repeat split.
  - exists "2001:db8:0:0:0:0:0:1". split; reflexivity.
  - cbn. discriminate.
Qed.

Example base64_rfc4648 :
  base64 EmptyString = EmptyString /\ base64 "f" = "Zg==" /\ base64 "fo" = "Zm8=" /\
  base64 "foo" = "Zm9v" /\ base64 "foob" = "Zm9vYg==" /\ base64 "fooba" = "Zm9vYmE=" /\
  base64 "foobar" = "Zm9vYmFy".
Proof. repeat split; reflexivity. Qed.

Example http_answers :
  answers_2xx example_ok = true /\
  answers_2xx (bytes_of_string ("HTTP/1.0 204 No Content" ++ CRLF)) = true /\
  answers_2xx (bytes_of_string ("HTTP/1.1 407 Proxy Authentication Required" ++ CRLF)) = false /\
  answers_2xx (bytes_of_string ("HTTP/1.1 2000 OK" ++ CRLF)) = false /\
  answers_2xx (bytes_of_string ("SSH-2.0-OpenSSH" ++ CRLF)) = false /\
  answers_2xx (bytes_of_string "HTTP/1.1 200 OK") = false.
Proof. repeat split; reflexivity. Qed.
